(** * LanguageBind: the multi-modal wrapper and the video tower

    A shallow embedding of [languagebind/__init__.py].

    The file follows the source top to bottom: the three registry
    dictionaries, the [LanguageBind] composite module (constructor and
    forward pass), [to_device], and the [LanguageBindVideoTower] adapter.

    Modelling choices.
    - A Python dictionary that is only indexed and assigned is a
      [gmap string _].  A dictionary that the code iterates over
      ([clip_type.items()], [inputs.items()]) is the list of its items in
      iteration order; its keys are pairwise distinct ([NoDup]), as in any
      Python dictionary.
    - A Python exception is a value of [PyError]; code that may raise
      returns a [result].
    - The pretrained encoders, projection heads and the model hub are
      code of other packages: they are parameters of the development.
    - So is the arithmetic of tensor elements (PyTorch's division,
      multiplication, exponential and vector norm, in floating point):
      it is the interface [Arith], and everything below holds for
      every arithmetic. *)

From Stdlib Require Import ZArith Lia.
From stdpp Require Import gmap strings list fin_maps.

(** ** Exceptions *)

Inductive PyError : Type :=
  | KeyError (key : string)
  | UnboundLocalError (name : string)
  | IndexError
  | AttributeError (name : string).

Inductive result (A : Type) : Type :=
  | OK (a : A)
  | Raise (e : PyError).
Arguments OK {A} a.
Arguments Raise {A} e.

#[global] Instance result_ret : MRet result := fun A a => OK a.
#[global] Instance result_bind : MBind result := fun A B f m =>
  match m with
  | OK a => f a
  | Raise e => Raise e
  end.
#[global] Instance result_fmap : FMap result := fun A B f m =>
  match m with
  | OK a => OK (f a)
  | Raise e => Raise e
  end.

(** [d[k]] on a dictionary: [KeyError] when the key is absent. *)
Definition getitem {V : Type} (d : gmap string V) (k : string) : result V :=
  match d !! k with
  | Some v => OK v
  | None => Raise (KeyError k)
  end.

(** The keys of an iterated dictionary, in iteration order. *)
Definition keys {V : Type} (items : list (string * V)) : list string :=
  items.*1.

(** ** The registry *)

Inductive ConfigClass : Type :=
  | LanguageBindImageConfig
  | LanguageBindVideoConfig
  | LanguageBindDepthConfig
  | LanguageBindAudioConfig
  | LanguageBindThermalConfig.

Inductive ModelClass : Type :=
  | LanguageBindImage
  | LanguageBindVideo
  | LanguageBindDepth
  | LanguageBindAudio
  | LanguageBindThermal.

Inductive ProcessorClass : Type :=
  | LanguageBindImageProcessor
  | LanguageBindVideoProcessor
  | LanguageBindDepthProcessor
  | LanguageBindAudioProcessor
  | LanguageBindThermalProcessor.

(** The sub-package each class is imported from
    ([from .image.configuration_image import LanguageBindImageConfig],
    and so on): the modality the class belongs to. *)
Definition config_package (c : ConfigClass) : string :=
  match c with
  | LanguageBindImageConfig => "image"
  | LanguageBindVideoConfig => "video"
  | LanguageBindDepthConfig => "depth"
  | LanguageBindAudioConfig => "audio"
  | LanguageBindThermalConfig => "thermal"
  end.

Definition model_package (c : ModelClass) : string :=
  match c with
  | LanguageBindImage => "image"
  | LanguageBindVideo => "video"
  | LanguageBindDepth => "depth"
  | LanguageBindAudio => "audio"
  | LanguageBindThermal => "thermal"
  end.

Definition processor_package (c : ProcessorClass) : string :=
  match c with
  | LanguageBindImageProcessor => "image"
  | LanguageBindVideoProcessor => "video"
  | LanguageBindDepthProcessor => "depth"
  | LanguageBindAudioProcessor => "audio"
  | LanguageBindThermalProcessor => "thermal"
  end.

Definition config_dict_items : list (string * ConfigClass) :=
  [ ("thermal", LanguageBindThermalConfig);
    ("image", LanguageBindImageConfig);
    ("video", LanguageBindVideoConfig);
    ("depth", LanguageBindDepthConfig);
    ("audio", LanguageBindAudioConfig) ].

Definition model_dict_items : list (string * ModelClass) :=
  [ ("thermal", LanguageBindThermal);
    ("image", LanguageBindImage);
    ("video", LanguageBindVideo);
    ("depth", LanguageBindDepth);
    ("audio", LanguageBindAudio) ].

Definition transform_dict_items : list (string * ProcessorClass) :=
  [ ("video", LanguageBindVideoProcessor);
    ("audio", LanguageBindAudioProcessor);
    ("depth", LanguageBindDepthProcessor);
    ("thermal", LanguageBindThermalProcessor);
    ("image", LanguageBindImageProcessor) ].

Definition config_dict : gmap string ConfigClass :=
  list_to_map config_dict_items.
Definition model_dict : gmap string ModelClass :=
  list_to_map model_dict_items.
Definition transform_dict : gmap string ProcessorClass :=
  list_to_map transform_dict_items.

(** The five modality names of the registry. *)
Definition registry_keys : gset string :=
  {[ "thermal"; "image"; "video"; "depth"; "audio" ]}.

(** ** Embeddings *)

(** The arithmetic of tensor elements, as PyTorch provides it for the
    element type [F] of the tensors at hand: [x / y], [x * y],
    [x.exp()] and the 2-norm of one vector,
    [v.norm(p=2, dim=-1)]. *)
Class Arith (F : Type) : Type := {
  fdiv : F → F → F;
  fmul : F → F → F;
  fexp : F → F;
  fnorm : list F → F
}.

(** A pooled or projected representation is a batch of vectors: the
    last dimension of the tensor is a [Row], the leading one the batch. *)
Definition Row (F : Type) : Type := list F.
Definition Batch (F : Type) : Type := list (Row F).

(** [value / value.norm(p=2, dim=-1, keepdim=True)]: every element is
    divided by the norm of its own vector. *)
Definition normalize {F : Type} `{Arith F} (value : Batch F) : Batch F :=
  map (λ r, map (λ x, fdiv x (fnorm r)) r) value.

(** [value * s] for a scalar [s]: every element is multiplied by [s]. *)
Definition mul_scalar {F : Type} `{Arith F} (value : Batch F) (s : F)
    : Batch F :=
  map (map (λ x, fmul x s)) value.

(** ** The composite module [LanguageBind] *)

Module LanguageBind.
Section Defs.
(** [F] is the element type of the embeddings, [Input] what the caller
    passes per modality (the keyword arguments of an encoder),
    [ModelConfig] a pretrained model's configuration object. *)
Context {F : Type} {A : Arith F} {Input ModelConfig : Type}.

(** What an encoder returns; index [1] is the pooled output. *)
Record EncoderOutput : Type := {
  last_hidden_state : list (Batch F);
  pooler_output : Batch F
}.

Definition Encoder : Type := Input → EncoderOutput.
Definition Projection : Type := Batch F → Batch F.

(** A model as returned by [from_pretrained]. *)
Record Pretrained : Type := {
  vision_model : Encoder;
  visual_projection : Projection;
  logit_scale : F;
  config : ModelConfig;
  text_model : Encoder;
  text_projection : Projection
}.

(** One call of [from_pretrained]. *)
Record LoadCall : Type := {
  load_class : ModelClass;
  load_ckpt : string;
  load_cache_dir : string
}.

(** The model hub: [cls.from_pretrained(ckpt, cache_dir=cache_dir)]. *)
Variable from_pretrained : ModelClass → string → string → Pretrained.

Record t : Type := {
  use_temp : bool;
  modality_encoder : gmap string Encoder;
  modality_proj : gmap string Projection;
  modality_scale : gmap string F;
  modality_config : gmap string ModelConfig
}.

(** The local state of the constructor's loop: the four dictionaries,
    the variable [model] (unbound before the first iteration) and the
    calls made to the hub so far. *)
Record InitState : Type := {
  st_encoder : gmap string Encoder;
  st_proj : gmap string Projection;
  st_scale : gmap string F;
  st_config : gmap string ModelConfig;
  st_model : option Pretrained;
  st_loads : list LoadCall
}.

Definition init_state : InitState :=
  {| st_encoder := ∅; st_proj := ∅; st_scale := ∅; st_config := ∅;
     st_model := None; st_loads := [] |}.

(** One iteration of [for k, v in clip_type.items()]. *)
Definition init_step (cache_dir : string) (st : InitState)
    (k v : string) : result InitState :=
  let pretrained_ckpt := "LanguageBind/" +:+ v in
  cls ← getitem model_dict k;
  let model := from_pretrained cls pretrained_ckpt cache_dir in
  mret {| st_encoder := <[k := vision_model model]> (st_encoder st);
          st_proj := <[k := visual_projection model]> (st_proj st);
          st_scale := <[k := logit_scale model]> (st_scale st);
          st_config := <[k := config model]> (st_config st);
          st_model := Some model;
          st_loads := st_loads st ++
            [ {| load_class := cls; load_ckpt := pretrained_ckpt;
                 load_cache_dir := cache_dir |} ] |}.

Fixpoint init_loop (cache_dir : string) (items : list (string * string))
    (st : InitState) : result InitState :=
  match items with
  | [] => mret st
  | (k, v) :: rest =>
      st' ← init_step cache_dir st k v;
      init_loop cache_dir rest st'
  end.

(** [LanguageBind(clip_type, use_temp, cache_dir)]: the module built
    and the calls made to the hub.  After the loop [model] is the
    model of the last iteration; with no iteration it is unbound.
    [nn.ModuleDict] keeps keys and values of the dictionary it wraps. *)
Definition __init__ (clip_type : list (string * string))
    (use_temp : bool) (cache_dir : string) : result (t * list LoadCall) :=
  st ← init_loop cache_dir clip_type init_state;
  match st_model st with
  | None => Raise (UnboundLocalError "model")
  | Some model =>
      mret ({| use_temp := use_temp;
               modality_encoder :=
                 <["language" := text_model model]> (st_encoder st);
               modality_proj :=
                 <["language" := text_projection model]> (st_proj st);
               modality_scale := st_scale st;
               modality_config := st_config st |},
            st_loads st)
  end.

(** The body of [for key, value in inputs.items()]. *)
Definition forward_step (self : t) (outputs : gmap string (Batch F))
    (key : string) (value : Input) : result (gmap string (Batch F)) :=
  encoder ← getitem (modality_encoder self) key;
  let value := pooler_output (encoder value) in
  proj ← getitem (modality_proj self) key;
  let value := proj value in
  let value := normalize value in
  value ←
    (if use_temp self then
       if bool_decide (key ≠ "language") then
         scale ← getitem (modality_scale self) key;
         mret (mul_scalar value (fexp scale))
       else mret value
     else mret value);
  mret (<[key := value]> outputs).

Fixpoint forward_loop (self : t) (items : list (string * Input))
    (outputs : gmap string (Batch F)) : result (gmap string (Batch F)) :=
  match items with
  | [] => mret outputs
  | (key, value) :: rest =>
      outputs' ← forward_step self outputs key value;
      forward_loop self rest outputs'
  end.

Definition forward (self : t) (inputs : list (string * Input))
    : result (gmap string (Batch F)) :=
  forward_loop self inputs ∅.

(** Lines 82-84 of the source on their own, for stating lemmas: what
    is stored under [key] when the normalized embedding is [value]. *)
Definition temperature (self : t) (key : string) (value : Batch F)
    : result (Batch F) :=
  if use_temp self then
    if bool_decide (key ≠ "language") then
      scale ← getitem (modality_scale self) key;
      mret (mul_scalar value (fexp scale))
    else mret value
  else mret value.

(** The model the constructor loads for the class [cls] and the
    checkpoint name [v]. *)
Definition load (cache_dir : string) (cls : ModelClass) (v : string)
    : Pretrained :=
  from_pretrained cls ("LanguageBind/" +:+ v) cache_dir.

(** [c] is the call to the hub that the item [(k, v)] of [clip_type]
    gives rise to. *)
Definition call_of (cache_dir : string) (item : string * string)
    (c : LoadCall) : Prop :=
  model_dict !! item.1 = Some (load_class c) ∧
  load_ckpt c = "LanguageBind/" +:+ item.2 ∧
  load_cache_dir c = cache_dir.

(** The four dictionaries [enc], [proj], [scale], [cfg] hold under [k]
    the parts of the model loaded for the item [(k, v)]. *)
Definition stored (cache_dir : string) (k v : string)
    (enc : gmap string Encoder) (proj : gmap string Projection)
    (scale : gmap string F) (cfg : gmap string ModelConfig) : Prop :=
  ∃ cls, model_dict !! k = Some cls ∧
    enc !! k = Some (vision_model (load cache_dir cls v)) ∧
    proj !! k = Some (visual_projection (load cache_dir cls v)) ∧
    scale !! k = Some (logit_scale (load cache_dir cls v)) ∧
    cfg !! k = Some (config (load cache_dir cls v)).

(** What [forward] needs of an input key: an encoder and a projection
    under it and, where scaling applies, a logit scale. *)
Definition servable (self : t) (key : string) : Prop :=
  is_Some (modality_encoder self !! key) ∧
  is_Some (modality_proj self !! key) ∧
  (use_temp self = true → key ≠ "language" →
   is_Some (modality_scale self !! key)).
End Defs.
Arguments EncoderOutput : clear implicits.
Arguments Encoder : clear implicits.
Arguments Projection : clear implicits.
Arguments Pretrained : clear implicits.
Arguments t : clear implicits.
Arguments InitState : clear implicits.
End LanguageBind.

(** ** [to_device] *)

Section ToDevice.
(** [T] is the type of the values of [x], [to v device] is
    [v.to(device)]. *)
Context {T Device : Type} (to : T → Device → T).

Definition to_device (x : list (string * T)) (device : Device)
    : gmap string T :=
  list_to_map ((λ kv, (kv.1, to kv.2 device)) <$> x).
End ToDevice.

(** ** Tensors of the video tower *)

Inductive DType : Type := float16 | bfloat16 | float32 | float64.
Inductive Device : Type := cpu | cuda (index : nat).

#[global] Instance DType_eq_dec : EqDecision DType.
Proof. solve_decision. Defined.
#[global] Instance Device_eq_dec : EqDecision Device.
Proof. solve_decision. Defined.

Module Tensor.
Section Defs.
(** [Data] is the content of a tensor; [cast dt d] is the content
    converted to the element type [dt]. *)
Context {Data : Type} (cast : DType → Data → Data).

Record t : Type := {
  dtype : DType;
  device : Device;
  shape : list nat;
  data : Data
}.

(** [x.to(dtype)]: [x] itself when it already has that element type. *)
Definition to_dtype (x : t) (dt : DType) : t :=
  if decide (dtype x = dt) then x
  else {| dtype := dt; device := device x; shape := shape x;
          data := cast dt (data x) |}.

(** [x.to(device=dev, dtype=dt)]. *)
Definition to (x : t) (dev : Device) (dt : DType) : t :=
  let y := to_dtype x dt in
  {| dtype := dtype y; device := dev; shape := shape y; data := data y |}.

(** [x.unsqueeze(0)]: a leading dimension of size one. *)
Definition unsqueeze0 (x : t) : t :=
  {| dtype := dtype x; device := device x; shape := 1 :: shape x;
     data := data x |}.
End Defs.
Arguments t : clear implicits.
End Tensor.

(** [l[i]] on a tuple or list, with Python's negative indices. *)
Definition py_index {A : Type} (l : list A) (i : Z) : result A :=
  let n := Z.of_nat (length l) in
  let j := if (i <? 0)%Z then (i + n)%Z else i in
  if ((0 <=? j)%Z && (j <? n)%Z)%bool then
    match l !! Z.to_nat j with
    | Some x => OK x
    | None => Raise IndexError
    end
  else Raise IndexError.

(** ** Exceptions of arithmetic and of tensor creation

    The two properties of the adapter that compute ([num_patches],
    [dummy_feature]) can raise, beside the exceptions of [PyError],
    [ZeroDivisionError] (integer division by zero) and what
    [torch.zeros] raises for a size it does not accept
    ([RuntimeError], [TypeError]).  Such code returns [Exception + A],
    the exception on the left. *)
Inductive Exception : Type :=
  | Lookup (e : PyError)
  | ZeroDivisionError
  | RuntimeError
  | TypeError.

(** [a // b] on integers: the quotient rounded towards minus infinity. *)
Definition floordiv (a b : Z) : Exception + Z :=
  if decide (b = 0)%Z then inl ZeroDivisionError else inr (a / b)%Z.

(** ** The adapter [LanguageBindVideoTower] *)

Module LanguageBindVideoTower.
Section Defs.
Context {Data : Type} (cast : DType → Data → Data).

(** The configuration fields the adapter reads. *)
Record Config : Type := {
  cfg_hidden_size : Z;
  cfg_image_size : Z;
  cfg_patch_size : Z
}.

Record Embeddings : Type := { class_embedding : Tensor.t Data }.

(** What the encoder returns; [hidden_states] is the tuple of the
    hidden states of all layers. *)
Record ForwardOuts : Type := { hidden_states : list (Tensor.t Data) }.

(** The video encoder [model.vision_model]: its call takes the input
    tensor and the keyword argument [output_hidden_states]. *)
Record VisionModel : Type := {
  call : Tensor.t Data → bool → ForwardOuts;
  embeddings : Embeddings;
  vision_config : Config
}.

(** [LanguageBindVideo.from_pretrained(...)]. *)
Record VideoModel : Type := {
  model_config : Config;
  vision_model : VisionModel
}.

(** [LanguageBindVideoProcessor(model.config)]. *)
Record Processor : Type := { processor_config : Config }.

Record Args : Type := {
  mm_vision_select_layer : Z;
  mm_vision_select_feature : option string
}.

(** The hub: [LanguageBindVideo.from_pretrained(name, cache_dir=...)]
    and [LanguageBindVideoConfig.from_pretrained(name, cache_dir=...)]. *)
Variable video_from_pretrained : string → string → VideoModel.
Variable config_from_pretrained : string → string → Config.

(** The attributes of the adapter; [None] is an attribute that has
    not been assigned. *)
Record t : Type := {
  is_loaded : bool;
  video_tower_name : string;
  select_layer : Z;
  select_feature : string;
  cache_dir : string;
  video_processor : option Processor;
  video_tower : option VisionModel;
  cfg_only : option Config
}.

(** [requires_grad_(False)] only freezes the encoder's parameters for
    training; it changes nothing that the adapter reads. *)
Definition load_model (self : t) : t :=
  let model := video_from_pretrained (video_tower_name self) (cache_dir self) in
  {| is_loaded := true;
     video_tower_name := video_tower_name self;
     select_layer := select_layer self;
     select_feature := select_feature self;
     cache_dir := cache_dir self;
     video_processor := Some {| processor_config := model_config model |};
     video_tower := Some (vision_model model);
     cfg_only := cfg_only self |}.

Definition __init__ (video_tower : string) (args : Args)
    (delay_load : bool) (cache_dir : string) : t :=
  let self :=
    {| is_loaded := false;
       video_tower_name := video_tower;
       select_layer := mm_vision_select_layer args;
       select_feature := default "patch" (mm_vision_select_feature args);
       cache_dir := cache_dir;
       video_processor := None;
       video_tower := None;
       cfg_only := None |} in
  if negb delay_load then load_model self
  else
    {| is_loaded := false;
       video_tower_name := video_tower;
       select_layer := mm_vision_select_layer args;
       select_feature := default "patch" (mm_vision_select_feature args);
       cache_dir := cache_dir;
       video_processor := None;
       video_tower := None;
       cfg_only := Some (config_from_pretrained video_tower cache_dir) |}.

(** Reading an attribute that may not have been assigned. *)
Definition getattr {A : Type} (name : string) (a : option A) : result A :=
  match a with
  | Some x => OK x
  | None => Raise (AttributeError name)
  end.

(** A property of an [nn.Module]: when its getter raises
    [AttributeError], the lookup falls back to [__getattr__], which
    reports the property's own name as the missing attribute. *)
Definition property {A : Type} (name : string) (getter : result A)
    : result A :=
  match getter with
  | Raise (AttributeError _) => Raise (AttributeError name)
  | r => r
  end.

Definition feature_select (self : t) (video_forward_outs : ForwardOuts)
    : result (Tensor.t Data) :=
  video_features ← py_index (hidden_states video_forward_outs) (select_layer self);
  mret video_features.

Definition dtype (self : t) : result DType :=
  property "dtype"
    (tower ← getattr "video_tower" (video_tower self);
     mret (Tensor.dtype (class_embedding (embeddings tower)))).

Definition device (self : t) : result Device :=
  property "device"
    (tower ← getattr "video_tower" (video_tower self);
     mret (Tensor.device (class_embedding (embeddings tower)))).

Definition config (self : t) : result Config :=
  property "config"
    (if is_loaded self then
       tower ← getattr "video_tower" (video_tower self);
       mret (vision_config tower)
     else getattr "cfg_only" (cfg_only self)).

Definition hidden_size (self : t) : result Z :=
  property "hidden_size"
    (cfg ← config self;
     mret (cfg_hidden_size cfg)).

(** The argument of [forward]: a Python list of videos, or anything
    else, which the code treats as one batched tensor. *)
Inductive Videos : Type :=
  | VideoList (videos : list (Tensor.t Data))
  | VideoBatch (videos : Tensor.t Data).

Inductive Features : Type :=
  | FeatureList (video_features : list (Tensor.t Data))
  | FeatureBatch (video_features : Tensor.t Data).

(** The body of [for video in videos]. *)
Definition forward_one (self : t) (video : Tensor.t Data)
    : result (Tensor.t Data) :=
  tower ← getattr "video_tower" (video_tower self);
  dev ← device self;
  dt ← dtype self;
  let video_forward_out :=
    call tower (Tensor.unsqueeze0 (Tensor.to cast video dev dt)) true in
  video_feature ← feature_select self video_forward_out;
  mret (Tensor.to_dtype cast video_feature (Tensor.dtype video)).

Fixpoint forward_list (self : t) (videos : list (Tensor.t Data))
    (video_features : list (Tensor.t Data)) : result (list (Tensor.t Data)) :=
  match videos with
  | [] => mret video_features
  | video :: rest =>
      video_feature ← forward_one self video;
      forward_list self rest (video_features ++ [video_feature])
  end.

Definition forward_batch (self : t) (videos : Tensor.t Data)
    : result (Tensor.t Data) :=
  tower ← getattr "video_tower" (video_tower self);
  dev ← device self;
  dt ← dtype self;
  let video_forward_outs := call tower (Tensor.to cast videos dev dt) true in
  video_features ← feature_select self video_forward_outs;
  mret (Tensor.to_dtype cast video_features (Tensor.dtype videos)).

Definition forward (self : t) (videos : Videos) : result Features :=
  match videos with
  | VideoList videos =>
      video_features ← forward_list self videos [];
      mret (FeatureList video_features)
  | VideoBatch videos =>
      video_features ← forward_batch self videos;
      mret (FeatureBatch video_features)
  end.

(** The element type and the device of the encoder's parameters. *)
Definition tower_dtype (tower : VisionModel) : DType :=
  Tensor.dtype (class_embedding (embeddings tower)).
Definition tower_device (tower : VisionModel) : Device :=
  Tensor.device (class_embedding (embeddings tower)).

(** The encoder run on [x] with hidden states requested, the layer
    [select_layer] taken and converted to the element type [dt]. *)
Definition selected (self : t) (tower : VisionModel) (x : Tensor.t Data)
    (dt : DType) : result (Tensor.t Data) :=
  h ← py_index (hidden_states (call tower x true)) (select_layer self);
  mret (Tensor.to_dtype cast h dt).

(** [self] with another value of [select_feature]. *)
Definition with_select_feature (s : string) (self : t) : t :=
  {| is_loaded := is_loaded self;
     video_tower_name := video_tower_name self;
     select_layer := select_layer self;
     select_feature := s;
     cache_dir := cache_dir self;
     video_processor := video_processor self;
     video_tower := video_tower self;
     cfg_only := cfg_only self |}.

(** [torch.zeros(sizes, device=device, dtype=dtype)], code of PyTorch:
    a tensor, or the exception raised for sizes it does not accept (a
    negative size, a size that is too large). *)
Variable zeros : list Z → Device → DType → Exception + Tensor.t Data.

(** The property [num_patches]:
    [(self.config.image_size // self.config.patch_size) ** 2]. *)
Definition num_patches (self : t) : Exception + Z :=
  match property "num_patches" (config self) with
  | Raise e => inl (Lookup e)
  | OK cfg =>
      match floordiv (cfg_image_size cfg) (cfg_patch_size cfg) with
      | inl e => inl e
      | inr q => inr (q ^ 2)%Z
      end
  end.

(** The property [dummy_feature]:
    [torch.zeros(1, self.hidden_size, device=self.device, dtype=self.dtype)].
    The arguments are evaluated in this order; an [AttributeError]
    leaving the getter is reported under the property's name. *)
Definition dummy_feature (self : t) : Exception + Tensor.t Data :=
  match
    property "dummy_feature"
      (size ← hidden_size self;
       dev ← device self;
       dt ← dtype self;
       mret (size, dev, dt))
  with
  | Raise e => inl (Lookup e)
  | OK (size, dev, dt) =>
      match zeros [1%Z; size] dev dt with
      | inl (Lookup (AttributeError _)) =>
          inl (Lookup (AttributeError "dummy_feature"))
      | r => r
      end
  end.
End Defs.
Arguments Config : clear implicits.
Arguments t : clear implicits.
Arguments VisionModel : clear implicits.
Arguments VideoModel : clear implicits.
Arguments ForwardOuts : clear implicits.
Arguments Embeddings : clear implicits.
Arguments Videos : clear implicits.
Arguments Features : clear implicits.
End LanguageBindVideoTower.

(** ** Concrete instances

    To run the code on concrete inputs: an arithmetic that does not
    compute, a small hub for each class, and inputs.

    In the arithmetic [Sym] a value is the expression that the
    arithmetic of the tensors would evaluate, so that a result shows
    which operations were applied to what.  The encoders of the first
    hub take a batch of vectors and return it as pooled output; the
    text encoder of a model answers with a vector that tells the
    model's class. *)

Module Example.
Import LanguageBind.

#[local] Set Warnings "-register-all".
Inductive Sym : Type :=
  | Num (n : Z)
  | Div (x y : Sym)
  | Mul (x y : Sym)
  | Exp (x : Sym)
  | Norm (v : list Sym).

#[global] Instance sym_arith : Arith Sym :=
  {| fdiv := Div; fmul := Mul; fexp := Exp; fnorm := Norm |}.

Definition class_weight (cls : ModelClass) : Sym :=
  match cls with
  | LanguageBindImage => Num 1
  | LanguageBindVideo => Num 2
  | LanguageBindDepth => Num 3
  | LanguageBindAudio => Num 4
  | LanguageBindThermal => Num 5
  end.

Definition hub (cls : ModelClass) (ckpt cache_dir : string)
    : Pretrained Sym (Batch Sym) string :=
  {| vision_model := λ x, {| last_hidden_state := [x]; pooler_output := x |};
     visual_projection := λ x, x;
     logit_scale := Num 1;
     config := ckpt;
     text_model := λ x,
       {| last_hidden_state := [x]; pooler_output := [[class_weight cls]] |};
     text_projection := λ x, x |}.

(** The module the constructor builds on this hub for the one item
    [('image', 'LanguageBind_Image')], an input for it, and what
    [forward] returns on that input. *)
Definition image_model : Pretrained Sym (Batch Sym) string :=
  hub LanguageBindImage "LanguageBind/LanguageBind_Image" "./cache_dir".

Definition image_module (use_temp : bool)
    : LanguageBind.t Sym (Batch Sym) string :=
  {| use_temp := use_temp;
     modality_encoder :=
       <["language" := text_model image_model]>
         (<["image" := vision_model image_model]> ∅);
     modality_proj :=
       <["language" := text_projection image_model]>
         (<["image" := visual_projection image_model]> ∅);
     modality_scale := <["image" := logit_scale image_model]> ∅;
     modality_config := <["image" := config image_model]> ∅ |}.

Definition image_value : Batch Sym := [[Num 3; Num 4]].
Definition text_value : Batch Sym := [[Num 0; Num 2]].

Definition image_inputs : list (string * Batch Sym) :=
  [("image", image_value)].

Definition image_outputs (use_temp : bool) : gmap string (Batch Sym) :=
  <["image" :=
      if use_temp then mul_scalar (normalize image_value) (fexp (Num 1))
      else normalize image_value]> ∅.

(** The video tower's hub: tensors carry an integer as content, a
    conversion keeps it, and the encoder has two layers, so that its
    tuple of hidden states has three entries. *)
Definition keep (dt : DType) (d : Z) : Z := d.

(** A [torch.zeros] for these tensors: it refuses a negative size. *)
Definition zeros (sizes : list Z) (dev : Device) (dt : DType)
    : Exception + Tensor.t Z :=
  if bool_decide (Forall (λ n, 0 ≤ n)%Z sizes) then
    inr {| Tensor.dtype := dt; Tensor.device := dev;
           Tensor.shape := Z.to_nat <$> sizes; Tensor.data := 0%Z |}
  else inl RuntimeError.

Definition video_config : LanguageBindVideoTower.Config :=
  {| LanguageBindVideoTower.cfg_hidden_size := 1024;
     LanguageBindVideoTower.cfg_image_size := 224;
     LanguageBindVideoTower.cfg_patch_size := 14 |}.

Definition layer (x : Tensor.t Z) : Tensor.t Z :=
  {| Tensor.dtype := Tensor.dtype x; Tensor.device := Tensor.device x;
     Tensor.shape := Tensor.shape x; Tensor.data := (Tensor.data x + 1)%Z |}.

Definition video_encoder : LanguageBindVideoTower.VisionModel Z :=
  {| LanguageBindVideoTower.call := λ x output_hidden_states,
       {| LanguageBindVideoTower.hidden_states :=
            if output_hidden_states then [x; layer x; layer (layer x)] else [] |};
     LanguageBindVideoTower.embeddings :=
       {| LanguageBindVideoTower.class_embedding :=
            {| Tensor.dtype := float16; Tensor.device := cuda 0;
               Tensor.shape := [1024]; Tensor.data := 0%Z |} |};
     LanguageBindVideoTower.vision_config := video_config |}.

Definition video_hub (name cache_dir : string)
    : LanguageBindVideoTower.VideoModel Z :=
  {| LanguageBindVideoTower.model_config := video_config;
     LanguageBindVideoTower.vision_model := video_encoder |}.

Definition config_hub (name cache_dir : string)
    : LanguageBindVideoTower.Config :=
  video_config.

Definition args : LanguageBindVideoTower.Args :=
  {| LanguageBindVideoTower.mm_vision_select_layer := (-2)%Z;
     LanguageBindVideoTower.mm_vision_select_feature := Some "patch" |}.

Definition tower : LanguageBindVideoTower.t Z :=
  LanguageBindVideoTower.__init__ video_hub config_hub
    "LanguageBind/LanguageBind_Video_merge" args false "./cache_dir".

Definition video : Tensor.t Z :=
  {| Tensor.dtype := float32; Tensor.device := cpu;
     Tensor.shape := [8; 3; 224; 224]; Tensor.data := 7%Z |}.

(** The hidden state the encoder yields at [select_layer] for [video],
    and that state converted to the element type of [video]. *)
Definition video_hidden : Tensor.t Z :=
  {| Tensor.dtype := float16; Tensor.device := cuda 0;
     Tensor.shape := [8; 3; 224; 224]; Tensor.data := 8%Z |}.

Definition video_feature : Tensor.t Z :=
  {| Tensor.dtype := float32; Tensor.device := cuda 0;
     Tensor.shape := [8; 3; 224; 224]; Tensor.data := 8%Z |}.

(** The same for [video] taken as one item of a list: a leading
    dimension of size one. *)
Definition video_feature_1 : Tensor.t Z :=
  {| Tensor.dtype := float32; Tensor.device := cuda 0;
     Tensor.shape := [1; 8; 3; 224; 224]; Tensor.data := 8%Z |}.

(** The one call to the hub that building [image_module] makes. *)
Definition image_loads : list LoadCall :=
  [ {| load_class := LanguageBindImage;
       load_ckpt := "LanguageBind/LanguageBind_Image";
       load_cache_dir := "./cache_dir" |} ].

(** Two inputs for [image_module], the same in the other order, and
    what [forward] returns for them with [use_temp] set. *)
Definition two_inputs : list (string * Batch Sym) :=
  [("image", image_value); ("language", text_value)].

Definition two_inputs_swapped : list (string * Batch Sym) :=
  [("language", text_value); ("image", image_value)].

Definition two_outputs : gmap string (Batch Sym) :=
  <["language" := normalize [[Num 1]]]>
    (<["image" := mul_scalar (normalize image_value) (fexp (Num 1))]> ∅).

(** An encoder with the same configuration as [video_encoder] whose
    parameters are [float32] and on the CPU, and a tower on it. *)
Definition video_encoder_cpu : LanguageBindVideoTower.VisionModel Z :=
  {| LanguageBindVideoTower.call :=
       LanguageBindVideoTower.call video_encoder;
     LanguageBindVideoTower.embeddings :=
       {| LanguageBindVideoTower.class_embedding :=
            {| Tensor.dtype := float32; Tensor.device := cpu;
               Tensor.shape := [1024]; Tensor.data := 0%Z |} |};
     LanguageBindVideoTower.vision_config := video_config |}.

Definition video_hub_cpu (name cache_dir : string)
    : LanguageBindVideoTower.VideoModel Z :=
  {| LanguageBindVideoTower.model_config := video_config;
     LanguageBindVideoTower.vision_model := video_encoder_cpu |}.

Definition tower_cpu : LanguageBindVideoTower.t Z :=
  LanguageBindVideoTower.__init__ video_hub_cpu config_hub
    "LanguageBind/LanguageBind_Video_merge" args false "./cache_dir".

(** A tower that counts its layer from the start, and a tower built
    with [delay_load] on a configuration whose patch size is zero. *)
Definition args_from_start : LanguageBindVideoTower.Args :=
  {| LanguageBindVideoTower.mm_vision_select_layer := 1%Z;
     LanguageBindVideoTower.mm_vision_select_feature := None |}.

Definition tower_from_start : LanguageBindVideoTower.t Z :=
  LanguageBindVideoTower.__init__ video_hub config_hub
    "LanguageBind/LanguageBind_Video_merge" args_from_start false
    "./cache_dir".

Definition zero_patch_config : LanguageBindVideoTower.Config :=
  {| LanguageBindVideoTower.cfg_hidden_size := 1024;
     LanguageBindVideoTower.cfg_image_size := 224;
     LanguageBindVideoTower.cfg_patch_size := 0 |}.

Definition zero_patch_tower : LanguageBindVideoTower.t Z :=
  LanguageBindVideoTower.__init__ video_hub (λ _ _, zero_patch_config)
    "LanguageBind/LanguageBind_Video_merge" args true "./cache_dir".
End Example.

(** * Properties *)

#[local] Set Warnings "-clear-no-such-hyp".

(** ** The result monad and dictionaries *)

Lemma bind_OK {A B : Type} (m : result A) (f : A → result B) (b : B) :
  m ≫= f = OK b ↔ ∃ a, m = OK a ∧ f a = OK b.
Proof.
  destruct m as [a|e]; simpl.
  - split; [by exists a | by intros (? & [= <-] & ?)].
  - split; [done | by intros (? & ? & ?)].
Qed.

Lemma getitem_OK {V : Type} (d : gmap string V) (k : string) (v : V) :
  getitem d k = OK v ↔ d !! k = Some v.
Proof. unfold getitem. destruct (d !! k); split; congruence. Qed.

Lemma mapM_result_OK {A B : Type} (f : A → result B) (l : list A) (k : list B) :
  mapM f l = OK k ↔ Forall2 (λ a b, f a = OK b) l k.
Proof.
  revert k. induction l as [|a l IH]; intros k; simpl.
  - split; [intros [= <-]; constructor|by intros ->%Forall2_nil_inv_l].
  - split.
    + intros (b & Hb & (k' & Hk' & [= <-])%bind_OK)%bind_OK.
      constructor; [done|by apply IH].
    + intros (b & k' & Hb & Hk' & ->)%Forall2_cons_inv_l.
      apply bind_OK. exists b. split; [done|]. apply bind_OK. exists k'.
      split; [by apply IH|done].
Qed.

Lemma elem_of_keys {V : Type} (items : list (string * V)) (k : string) :
  k ∈ keys items ↔ ∃ v, (k, v) ∈ items.
Proof.
  unfold keys. rewrite list_elem_of_fmap. split.
  - intros ([k' v] & -> & ?). by exists v.
  - intros (v & ?). by exists (k, v).
Qed.

(** ** The registry *)

Lemma registry_dom :
  dom config_dict = registry_keys ∧
  dom model_dict = registry_keys ∧
  dom transform_dict = registry_keys.
Proof. repeat split; apply (bool_decide_unpack _); by vm_compute. Qed.

Lemma registry_lookup (k : string) :
  k ∈ registry_keys ↔ is_Some (model_dict !! k).
Proof.
  rewrite <- elem_of_dom.
  by destruct registry_dom as (_ & -> & _).
Qed.

Lemma registry_cases (k : string) :
  k ∈ registry_keys →
  k = "thermal" ∨ k = "image" ∨ k = "video" ∨ k = "depth" ∨ k = "audio".
Proof. unfold registry_keys. set_solver. Qed.

Lemma language_not_registered : "language" ∉ registry_keys.
Proof. intros H. apply registry_cases in H. naive_solver. Qed.

(** ** The forward pass of [LanguageBind] *)

Section Forward.
Context {F : Type} {A : Arith F} {Input ModelConfig : Type}.
Import LanguageBind.
Implicit Types (self : LanguageBind.t F Input ModelConfig).
Implicit Types (inputs items : list (string * Input)).
Implicit Types (outputs out : gmap string (Batch F)).

Lemma forward_step_eq self outputs key value :
  forward_step self outputs key value =
    encoder ← getitem (modality_encoder self) key;
    proj ← getitem (modality_proj self) key;
    b ← temperature self key (normalize (proj (pooler_output (encoder value))));
    mret (<[key := b]> outputs).
Proof. reflexivity. Qed.

Lemma forward_step_OK self outputs key value out :
  forward_step self outputs key value = OK out ↔
  ∃ encoder proj b,
    modality_encoder self !! key = Some encoder ∧
    modality_proj self !! key = Some proj ∧
    temperature self key (normalize (proj (pooler_output (encoder value)))) = OK b ∧
    out = <[key := b]> outputs.
Proof.
  rewrite forward_step_eq, bind_OK. do 2 setoid_rewrite bind_OK.
  setoid_rewrite getitem_OK. split.
  - intros (enc & ? & proj & ? & b & ? & [= <-]). by exists enc, proj, b.
  - intros (enc & proj & b & ? & ? & ? & ->). exists enc; split; [done|].
    exists proj; split; [done|]. by exists b.
Qed.

Lemma temperature_cases self key value b :
  temperature self key value = OK b ↔
  (use_temp self = true ∧ key ≠ "language" ∧
   ∃ scale, modality_scale self !! key = Some scale ∧
            b = mul_scalar value (fexp scale)) ∨
  ((use_temp self = false ∨ key = "language") ∧ b = value).
Proof.
  unfold temperature. destruct (use_temp self).
  - case_bool_decide as Hk.
    + rewrite bind_OK. setoid_rewrite getitem_OK. split.
      * intros (s & ? & [= <-]). left. eauto.
      * intros [(_ & _ & s & ? & ->)|[[?|?] _]]; [by exists s|done..].
    + split.
      * intros [= <-]. right. eauto.
      * intros [(_ & ? & _)|[_ ->]]; done.
  - split.
    + intros [= <-]. right. eauto.
    + intros [(? & _)|[_ ->]]; done.
Qed.

Lemma temperature_total self key value :
  (use_temp self = true → key ≠ "language" →
   is_Some (modality_scale self !! key)) →
  ∃ b, temperature self key value = OK b.
Proof.
  intros H. unfold temperature. destruct (use_temp self); [|by eexists].
  case_bool_decide; [|by eexists].
  destruct H as [s Hs]; [done..|]. unfold getitem. rewrite Hs. by eexists.
Qed.

Lemma forward_loop_dom self items outputs out :
  forward_loop self items outputs = OK out →
  dom out = list_to_set (keys items) ∪ dom outputs.
Proof.
  revert outputs. induction items as [|[k v] items IH]; intros outputs; simpl.
  - intros [= <-]. set_solver.
  - intros (o' & Hs & Hl)%bind_OK. apply IH in Hl as ->.
    apply forward_step_OK in Hs as (? & ? & b & _ & _ & _ & ->).
    rewrite dom_insert_L. set_solver.
Qed.

Lemma forward_loop_notin self items outputs out key :
  forward_loop self items outputs = OK out →
  key ∉ keys items → out !! key = outputs !! key.
Proof.
  revert outputs. induction items as [|[k v] items IH]; intros outputs; simpl.
  - by intros [= <-].
  - intros (o' & Hs & Hl)%bind_OK [Hne Hk]%not_elem_of_cons.
    rewrite (IH _ Hl Hk).
    apply forward_step_OK in Hs as (? & ? & b & _ & _ & _ & ->).
    by rewrite lookup_insert_ne.
Qed.

Lemma forward_loop_in self items outputs out key value :
  NoDup (keys items) →
  forward_loop self items outputs = OK out →
  (key, value) ∈ items →
  ∃ encoder proj b,
    modality_encoder self !! key = Some encoder ∧
    modality_proj self !! key = Some proj ∧
    temperature self key (normalize (proj (pooler_output (encoder value)))) = OK b ∧
    out !! key = Some b.
Proof.
  revert outputs. induction items as [|[k v] items IH]; intros outputs; simpl.
  - intros _ _ Hin. by apply elem_of_nil in Hin.
  - intros [Hk Hnd]%NoDup_cons (o' & Hs & Hl)%bind_OK Hin.
    apply elem_of_cons in Hin as [[= -> ->]|Hin]; [|by eapply IH].
    apply forward_step_OK in Hs as (enc & proj & b & ? & ? & ? & ->).
    exists enc, proj, b. repeat split; try done.
    rewrite (forward_loop_notin _ _ _ _ _ Hl Hk). apply lookup_insert_eq.
Qed.

Lemma forward_loop_total self items outputs :
  Forall (servable self) (keys items) →
  ∃ out, forward_loop self items outputs = OK out.
Proof.
  revert outputs. induction items as [|[k v] items IH]; intros outputs; simpl.
  - by eexists.
  - intros [([enc He] & [proj Hp] & Hs) Hall]%Forall_cons.
    destruct (temperature_total self k
      (normalize (proj (pooler_output (enc v)))) Hs) as [b Hb].
    destruct (IH (<[k := b]> outputs) Hall) as [out Hout].
    exists out. apply bind_OK. exists (<[k := b]> outputs). split; [|done].
    apply forward_step_OK. by exists enc, proj, b.
Qed.

Lemma forward_step_raise self outputs key value e :
  forward_step self outputs key value = Raise e → e = KeyError key.
Proof.
  rewrite forward_step_eq. unfold getitem.
  destruct (modality_encoder self !! key); simpl; [|by intros [= <-]].
  destruct (modality_proj self !! key); simpl; [|by intros [= <-]].
  unfold temperature. destruct (use_temp self); [|done].
  case_bool_decide; [|done]. unfold getitem.
  destruct (modality_scale self !! key); simpl; [done|by intros [= <-]].
Qed.

Lemma forward_loop_raise self items outputs key :
  key ∈ keys items → modality_encoder self !! key = None →
  ∃ k, forward_loop self items outputs = Raise (KeyError k).
Proof.
  revert outputs. induction items as [|[k v] items IH]; intros outputs; simpl.
  - intros Hin. by apply elem_of_nil in Hin.
  - intros Hin Hnone.
    destruct (forward_step self outputs k v) as [o'|e] eqn:Hs; simpl.
    + apply elem_of_cons in Hin as [->|Hin]; [|by apply IH].
      apply forward_step_OK in Hs as (? & ? & ? & He & _).
      unfold Encoder in *. by rewrite Hnone in He.
    + apply forward_step_raise in Hs as ->. by eexists.
Qed.

(** ** C2 *)

(** C2: in [LanguageBind.forward], every output is computed from the
    input under its key: the pooled output of the key's encoder goes
    through the key's projection, and every element of the result is
    divided by the norm of its own vector.  With [use_temp] true and a
    key other than ['language'], every element of this normalized
    embedding is then multiplied by the exponential of that key's
    logit scale; under ['language'], and under every key with
    [use_temp] false, the output is the normalized embedding itself. *)
Theorem C2_temperature_scaling self inputs outputs key (b : Batch F) :
  NoDup (keys inputs) →
  forward self inputs = OK outputs →
  outputs !! key = Some b →
  ∃ value encoder proj,
    (key, value) ∈ inputs ∧
    modality_encoder self !! key = Some encoder ∧
    modality_proj self !! key = Some proj ∧
    let e := map (λ r, map (λ x, fdiv x (fnorm r)) r)
               (proj (pooler_output (encoder value))) in
    (use_temp self = true → key ≠ "language" →
     ∃ scale, modality_scale self !! key = Some scale ∧
              b = map (map (λ x, fmul x (fexp scale))) e) ∧
    (use_temp self = true → key = "language" → b = e) ∧
    (use_temp self = false → b = e).
Proof.
  intros Hnd Hf Hb.
  assert (key ∈ keys inputs) as (value & Hin)%elem_of_keys.
  { apply forward_loop_dom in Hf.
    assert (key ∈ dom outputs) as Hd by (apply elem_of_dom; eauto).
    rewrite Hf in Hd. set_solver. }
  destruct (forward_loop_in _ _ _ _ _ _ Hnd Hf Hin)
    as (enc & proj & b' & He & Hp & Ht & Hb').
  rewrite Hb in Hb'. injection Hb' as <-.
  exists value, enc, proj. repeat split; try done;
    apply temperature_cases in Ht
      as [(Hu & Hk & s & Hs & ->)|[[Hu|Hk] ->]]; intros; try done; try congruence.
  by exists s.
Qed.
End Forward.

(** ** The constructor of [LanguageBind] *)

Section Constructor.
Context {F : Type} {A : Arith F} {Input ModelConfig : Type}.
Variable from_pretrained :
  ModelClass → string → string → LanguageBind.Pretrained F Input ModelConfig.
Import LanguageBind.
Implicit Types (st : LanguageBind.InitState F Input ModelConfig).
Implicit Types (self : LanguageBind.t F Input ModelConfig).
Implicit Types (clip_type items : list (string * string)).

Lemma init_step_OK cache_dir st k v st' :
  init_step from_pretrained cache_dir st k v = OK st' ↔
  ∃ cls, model_dict !! k = Some cls ∧
    let model := load from_pretrained cache_dir cls v in
    st' = {| st_encoder := <[k := vision_model model]> (st_encoder st);
             st_proj := <[k := visual_projection model]> (st_proj st);
             st_scale := <[k := logit_scale model]> (st_scale st);
             st_config := <[k := config model]> (st_config st);
             st_model := Some model;
             st_loads := st_loads st ++
               [ {| load_class := cls;
                    load_ckpt := "LanguageBind/" +:+ v;
                    load_cache_dir := cache_dir |} ] |}.
Proof.
  unfold init_step. rewrite bind_OK. setoid_rewrite getitem_OK.
  split; intros (cls & ? & H); exists cls; split; try done.
  - by injection H as <-.
  - simpl in H. by rewrite H.
Qed.

Lemma init_loop_app cache_dir items1 items2 st :
  init_loop from_pretrained cache_dir (items1 ++ items2) st =
  (st' ← init_loop from_pretrained cache_dir items1 st;
   init_loop from_pretrained cache_dir items2 st').
Proof.
  revert st. induction items1 as [|[k v] items1 IH]; intros st; simpl; [done|].
  destruct (init_step from_pretrained cache_dir st k v); simpl; [apply IH|done].
Qed.

Lemma init_loop_total cache_dir items st :
  Forall (λ k, k ∈ registry_keys) (keys items) →
  ∃ st', init_loop from_pretrained cache_dir items st = OK st'.
Proof.
  revert st. induction items as [|[k v] items IH]; intros st; simpl.
  - by eexists.
  - intros [[cls Hcls]%registry_lookup Hall]%Forall_cons.
    edestruct IH as [st' Hst']; [done|].
    exists st'. apply bind_OK. eexists. split; [|done].
    apply init_step_OK. by exists cls.
Qed.

Lemma init_loop_registered cache_dir items st st' :
  init_loop from_pretrained cache_dir items st = OK st' →
  Forall (λ k, k ∈ registry_keys) (keys items).
Proof.
  revert st. induction items as [|[k v] items IH]; intros st; simpl.
  - constructor.
  - intros (s & (cls & Hcls & _)%init_step_OK & Hl)%bind_OK.
    constructor; [|by eapply IH]. apply registry_lookup. by rewrite Hcls.
Qed.

Lemma init_loop_notin cache_dir items st st' key :
  init_loop from_pretrained cache_dir items st = OK st' →
  key ∉ keys items →
  st_encoder st' !! key = st_encoder st !! key ∧
  st_proj st' !! key = st_proj st !! key ∧
  st_scale st' !! key = st_scale st !! key ∧
  st_config st' !! key = st_config st !! key.
Proof.
  revert st. induction items as [|[k v] items IH]; intros st; simpl.
  - by intros [= <-].
  - intros (s & Hs & Hl)%bind_OK [Hne Hk]%not_elem_of_cons.
    destruct (IH _ Hl Hk) as (-> & -> & -> & ->).
    apply init_step_OK in Hs as (cls & _ & ->). simpl.
    by rewrite !lookup_insert_ne.
Qed.

Lemma init_loop_in cache_dir items st st' k v :
  NoDup (keys items) →
  init_loop from_pretrained cache_dir items st = OK st' →
  (k, v) ∈ items →
  stored from_pretrained cache_dir k v
    (st_encoder st') (st_proj st') (st_scale st') (st_config st').
Proof.
  revert st. induction items as [|[k0 v0] items IH]; intros st; simpl.
  - intros _ _ Hin. by apply elem_of_nil in Hin.
  - intros [Hk Hnd]%NoDup_cons (s & Hs & Hl)%bind_OK Hin.
    apply elem_of_cons in Hin as [[= -> ->]|Hin]; [|by eapply IH].
    destruct (init_loop_notin _ _ _ _ _ Hl Hk) as (He & Hp & Hsc & Hc).
    apply init_step_OK in Hs as (cls & Hcls & ->). simpl in *.
    exists cls. rewrite He, Hp, Hsc, Hc, !lookup_insert_eq. done.
Qed.

Lemma init_loop_dom cache_dir items st st' :
  init_loop from_pretrained cache_dir items st = OK st' →
  dom (st_encoder st') = list_to_set (keys items) ∪ dom (st_encoder st) ∧
  dom (st_proj st') = list_to_set (keys items) ∪ dom (st_proj st) ∧
  dom (st_scale st') = list_to_set (keys items) ∪ dom (st_scale st) ∧
  dom (st_config st') = list_to_set (keys items) ∪ dom (st_config st).
Proof.
  revert st. induction items as [|[k v] items IH]; intros st; simpl.
  - intros [= <-]. set_solver.
  - intros (s & Hs & Hl)%bind_OK.
    destruct (IH _ Hl) as (-> & -> & -> & ->).
    apply init_step_OK in Hs as (cls & _ & ->). simpl.
    rewrite !dom_insert_L. set_solver.
Qed.

Lemma init_loop_loads cache_dir items st st' :
  init_loop from_pretrained cache_dir items st = OK st' →
  ∃ calls, st_loads st' = st_loads st ++ calls ∧
    Forall2 (call_of cache_dir) items calls.
Proof.
  revert st. induction items as [|[k v] items IH]; intros st; simpl.
  - intros [= <-]. exists []. by rewrite app_nil_r.
  - intros (s & Hs & Hl)%bind_OK.
    destruct (IH _ Hl) as (calls & -> & Hcalls).
    apply init_step_OK in Hs as (cls & Hcls & ->). simpl.
    eexists (_ :: calls). rewrite <- app_assoc. split; [done|].
    by constructor.
Qed.

Lemma init_loop_model_last cache_dir items k v st st' :
  init_loop from_pretrained cache_dir (items ++ [(k, v)]) st = OK st' →
  ∃ cls, model_dict !! k = Some cls ∧
    st_model st' = Some (load from_pretrained cache_dir cls v).
Proof.
  rewrite init_loop_app. intros (s & _ & Hl)%bind_OK. simpl in Hl.
  apply bind_OK in Hl as (s' & (cls & Hcls & ->)%init_step_OK & [= <-]).
  by exists cls.
Qed.

(** The constructor in terms of its loop. *)
Lemma init_OK clip_type use_temp cache_dir self loads :
  __init__ from_pretrained clip_type use_temp cache_dir = OK (self, loads) ↔
  ∃ st model,
    init_loop from_pretrained cache_dir clip_type init_state = OK st ∧
    st_model st = Some model ∧
    self = {| use_temp := use_temp;
              modality_encoder :=
                <["language" := text_model model]> (st_encoder st);
              modality_proj :=
                <["language" := text_projection model]> (st_proj st);
              modality_scale := st_scale st;
              modality_config := st_config st |} ∧
    loads = st_loads st.
Proof.
  unfold __init__. rewrite bind_OK. split.
  - intros (st & Hst & H). destruct (st_model st) as [model|] eqn:Hm; [|done].
    injection H as <- <-. by exists st, model.
  - intros (st & model & Hst & Hm & -> & ->). exists st. split; [done|].
    by rewrite Hm.
Qed.

Lemma init_total clip_type use_temp cache_dir :
  clip_type ≠ [] →
  Forall (λ k, k ∈ registry_keys) (keys clip_type) →
  ∃ self loads,
    __init__ from_pretrained clip_type use_temp cache_dir = OK (self, loads).
Proof.
  intros Hne Hall.
  destruct (init_loop_total cache_dir clip_type init_state Hall) as [st Hst].
  destruct clip_type as [|item items _] using rev_ind; [done|].
  destruct item as [k v].
  destruct (init_loop_model_last _ _ _ _ _ _ Hst) as (cls & _ & Hm).
  eexists _, _. apply init_OK. by exists st, (load from_pretrained cache_dir cls v).
Qed.

Lemma init_dom clip_type use_temp cache_dir self loads :
  __init__ from_pretrained clip_type use_temp cache_dir = OK (self, loads) →
  dom (modality_encoder self) = list_to_set (keys clip_type) ∪ {["language"]} ∧
  dom (modality_proj self) = list_to_set (keys clip_type) ∪ {["language"]} ∧
  dom (modality_scale self) = list_to_set (keys clip_type) ∧
  dom (modality_config self) = list_to_set (keys clip_type).
Proof.
  intros (st & model & Hst & _ & -> & _)%init_OK. simpl.
  destruct (init_loop_dom _ _ _ _ Hst) as (He & Hp & Hs & Hc).
  rewrite !dom_insert_L, He, Hp, Hs, Hc. simpl. set_solver.
Qed.

Lemma init_servable clip_type use_temp cache_dir self loads key :
  __init__ from_pretrained clip_type use_temp cache_dir = OK (self, loads) →
  key ∈ keys clip_type ∨ key = "language" →
  servable self key.
Proof.
  intros (He & Hp & Hs & _)%init_dom Hk. unfold servable.
  rewrite <- !elem_of_dom, He, Hp, Hs. set_solver.
Qed.

Lemma init_language items k v use_temp cache_dir :
  Forall (λ k, k ∈ registry_keys) (keys (items ++ [(k, v)])) →
  ∃ self loads cls,
    __init__ from_pretrained (items ++ [(k, v)]) use_temp cache_dir
      = OK (self, loads) ∧
    model_dict !! k = Some cls ∧
    modality_encoder self !! "language"
      = Some (text_model (load from_pretrained cache_dir cls v)) ∧
    modality_proj self !! "language"
      = Some (text_projection (load from_pretrained cache_dir cls v)).
Proof.
  intros Hall.
  destruct (init_total (items ++ [(k, v)]) use_temp cache_dir)
    as (self & loads & Hinit); [by destruct items|done|].
  pose proof Hinit as (st & model & Hst & Hm & -> & _)%init_OK.
  destruct (init_loop_model_last _ _ _ _ _ _ Hst) as (cls & Hcls & Hm').
  rewrite Hm in Hm'. injection Hm' as ->.
  eexists _, loads, cls. split; [exact Hinit|]. split; [done|]. simpl.
  by rewrite !lookup_insert_eq.
Qed.

End Constructor.

(** Two orderings of the same two items, on the example hub. *)
Lemma example_orderings :
  ∃ (m1 m2 : LanguageBind.t Example.Sym (Batch Example.Sym) string) loads1 loads2,
    LanguageBind.__init__ Example.hub
      [("image", "LanguageBind_Image"); ("video", "LanguageBind_Video")]
      true "./cache_dir" = OK (m1, loads1) ∧
    LanguageBind.__init__ Example.hub
      [("video", "LanguageBind_Video"); ("image", "LanguageBind_Image")]
      true "./cache_dir" = OK (m2, loads2) ∧
    LanguageBind.modality_encoder m1 !! "language"
      ≠ LanguageBind.modality_encoder m2 !! "language".
Proof.
  destruct (init_language Example.hub [("image", "LanguageBind_Image")]
              "video" "LanguageBind_Video" true "./cache_dir")
    as (m1 & loads1 & cls1 & Hm1 & Hcls1 & He1 & _).
  { repeat constructor; apply (bool_decide_unpack _); by vm_compute. }
  destruct (init_language Example.hub [("video", "LanguageBind_Video")]
              "image" "LanguageBind_Image" true "./cache_dir")
    as (m2 & loads2 & cls2 & Hm2 & Hcls2 & He2 & _).
  { repeat constructor; apply (bool_decide_unpack _); by vm_compute. }
  exists m1, m2, loads1, loads2. split; [exact Hm1|]. split; [exact Hm2|].
  vm_compute in Hcls1. vm_compute in Hcls2.
  injection Hcls1 as <-. injection Hcls2 as <-.
  rewrite He1, He2. intros [= H].
  apply (f_equal (λ f, LanguageBind.pooler_output (f []))) in H.
  simpl in H. by injection H.
Qed.

Section ConstructorClaims.
Context {F : Type} {A : Arith F} {Input ModelConfig : Type}.
Variable from_pretrained :
  ModelClass → string → string → LanguageBind.Pretrained F Input ModelConfig.
Import LanguageBind.
Implicit Types (self : LanguageBind.t F Input ModelConfig).
Implicit Types (clip_type items : list (string * string)).

(** ** C4 *)

(** C4 (amended): for every non-empty [clip_type] mapping whose keys
    all belong to the registry, the constructor returns a module; it
    calls the hub once per item, in iteration order, with the class
    registered for the key and the checkpoint ['LanguageBind/' + v];
    and it stores under every key the vision encoder, the visual
    projection, the logit scale and the config of the model loaded for
    that key. *)
Theorem C4_constructor_stores clip_type use_temp cache_dir :
  clip_type ≠ [] →
  NoDup (keys clip_type) →
  Forall (λ k, k ∈ registry_keys) (keys clip_type) →
  ∃ self loads,
    __init__ from_pretrained clip_type use_temp cache_dir = OK (self, loads) ∧
    Forall2 (call_of cache_dir) clip_type loads ∧
    ∀ k v, (k, v) ∈ clip_type →
      stored from_pretrained cache_dir k v
        (modality_encoder self) (modality_proj self)
        (modality_scale self) (modality_config self).
Proof.
  intros Hne Hnd Hall.
  destruct (init_total from_pretrained clip_type use_temp cache_dir Hne Hall)
    as (self & loads & Hinit).
  exists self, loads. split; [done|].
  apply init_OK in Hinit as (st & model & Hst & _ & -> & ->). simpl.
  split.
  - destruct (init_loop_loads _ _ _ _ _ Hst) as (calls & -> & Hcalls). done.
  - intros k v Hin.
    destruct (init_loop_in _ _ _ _ _ _ _ Hnd Hst Hin)
      as (cls & Hcls & He & Hp & Hs & Hc).
    assert (k ≠ "language") as Hk.
    { intros ->. apply language_not_registered, registry_lookup.
      by rewrite Hcls. }
    exists cls. by rewrite !lookup_insert_ne.
Qed.

(** ** C8 *)

(** C8: the ['language'] entries of [modality_encoder] and
    [modality_proj] are the text encoder and the text projection of the
    model loaded for the last item of [clip_type]; two orderings of the
    same items can therefore give different language encoders; and the
    constructor fails on an empty [clip_type]. *)
Theorem C8_language_from_last use_temp cache_dir :
  (∀ items k v,
     Forall (λ k, k ∈ registry_keys) (keys (items ++ [(k, v)])) →
     ∃ self loads cls,
       __init__ from_pretrained (items ++ [(k, v)]) use_temp cache_dir
         = OK (self, loads) ∧
       model_dict !! k = Some cls ∧
       modality_encoder self !! "language"
         = Some (text_model (load from_pretrained cache_dir cls v)) ∧
       modality_proj self !! "language"
         = Some (text_projection (load from_pretrained cache_dir cls v))) ∧
  (∃ (m1 m2 : LanguageBind.t Example.Sym (Batch Example.Sym) string) loads1 loads2,
     __init__ Example.hub
       [("image", "LanguageBind_Image"); ("video", "LanguageBind_Video")]
       true "./cache_dir" = OK (m1, loads1) ∧
     __init__ Example.hub
       [("video", "LanguageBind_Video"); ("image", "LanguageBind_Image")]
       true "./cache_dir" = OK (m2, loads2) ∧
     modality_encoder m1 !! "language" ≠ modality_encoder m2 !! "language") ∧
  __init__ from_pretrained [] use_temp cache_dir
    = Raise (UnboundLocalError "model").
Proof.
  split; [|split].
  - intros items k v. apply init_language.
  - apply example_orderings.
  - reflexivity.
Qed.

(** ** C10 *)

(** C10 (amended): on a module built by the constructor, for every
    input dict whose keys are keys of [clip_type] or ['language'],
    [forward] returns a dict whose key set is exactly the key set of
    the input; an input key that is neither makes [forward] raise
    [KeyError]; and [to_device] returns a dict with exactly the keys
    of its input. *)
Theorem C10_same_keys clip_type use_temp cache_dir self loads
    (inputs : list (string * Input)) :
  __init__ from_pretrained clip_type use_temp cache_dir = OK (self, loads) →
  ((∀ k, k ∈ keys inputs → k ∈ keys clip_type ∨ k = "language") →
   ∃ outputs, forward self inputs = OK outputs ∧
     dom outputs = list_to_set (keys inputs)) ∧
  (∀ k, k ∈ keys inputs → k ∉ keys clip_type → k ≠ "language" →
   ∃ k', forward self inputs = Raise (KeyError k')) ∧
  (∀ (T Device : Type) (to : T → Device → T) (x : list (string * T))
     (device : Device),
   dom (to_device to x device) = list_to_set (keys x)).
Proof.
  intros Hinit. split; [|split].
  - intros Hk.
    destruct (forward_loop_total self inputs ∅) as [outputs Hf].
    { apply Forall_forall. intros k Hin.
      eapply init_servable; [exact Hinit|by apply Hk]. }
    exists outputs. split; [exact Hf|].
    apply forward_loop_dom in Hf. rewrite Hf. set_solver.
  - intros k Hin Hclip Hlang. apply (forward_loop_raise self inputs ∅ k Hin).
    apply not_elem_of_dom.
    destruct (init_dom _ _ _ _ _ _ Hinit) as (-> & _). set_solver.
  - intros T Device to x device. unfold to_device, keys.
    rewrite dom_list_to_map_L, <- list_fmap_compose. f_equal.
Qed.
End ConstructorClaims.

(** ** Python indexing *)

Lemma py_index_OK {A : Type} (l : list A) (i : Z) :
  (- Z.of_nat (length l) ≤ i < Z.of_nat (length l))%Z ↔
  ∃ x, py_index l i = OK x.
Proof.
  unfold py_index. split.
  - intros Hi. destruct (Z.ltb_spec i 0).
    + rewrite (proj2 (andb_true_iff _ _))
        by (split; [apply Z.leb_le|apply Z.ltb_lt]; lia).
      destruct (lookup_lt_is_Some_2 l (Z.to_nat (i + Z.of_nat (length l))))
        as [x ->]; [lia|].
      by exists x.
    + rewrite (proj2 (andb_true_iff _ _))
        by (split; [apply Z.leb_le|apply Z.ltb_lt]; lia).
      destruct (lookup_lt_is_Some_2 l (Z.to_nat i)) as [x ->]; [lia|].
      by exists x.
  - intros [x Hx]. destruct (Z.ltb_spec i 0);
      destruct (_ && _) eqn:Hb; try done;
      apply andb_true_iff in Hb as [?%Z.leb_le ?%Z.ltb_lt]; lia.
Qed.

(** Which element an index selects: the [i]-th for [i] from 0, the
    [i]-th from the end for a negative [i]. *)
Lemma py_index_spec {A : Type} (l : list A) (i : Z) (x : A) :
  py_index l i = OK x ↔
  (- Z.of_nat (length l) ≤ i < Z.of_nat (length l))%Z ∧
  l !! Z.to_nat (if (i <? 0)%Z then i + Z.of_nat (length l) else i)%Z = Some x.
Proof.
  split.
  - intros Hx. split; [apply py_index_OK; by exists x|].
    unfold py_index in Hx. destruct (_ && _); [|done].
    destruct (l !! _); [|done]. by injection Hx as ->.
  - intros [Hi Hl]. apply py_index_OK in Hi as [y Hy].
    pose proof Hy as Hy'. unfold py_index in Hy'.
    destruct (_ && _); [|done]. rewrite Hl in Hy'. by rewrite Hy, <- Hy'.
Qed.

Lemma py_index_Raise {A : Type} (l : list A) (i : Z) :
  ¬ (- Z.of_nat (length l) ≤ i < Z.of_nat (length l))%Z →
  py_index l i = Raise IndexError.
Proof.
  intros Hi. destruct (py_index l i) as [x|e] eqn:Hx.
  - destruct Hi. apply py_index_OK. by exists x.
  - unfold py_index in Hx. destruct (_ && _); [|by injection Hx as <-].
    destruct (l !! _); [done|by injection Hx as <-].
Qed.

(** ** The video tower *)

Section Tower.
Context {Data : Type} (cast : DType → Data → Data).
Variable video_from_pretrained :
  string → string → LanguageBindVideoTower.VideoModel Data.
Variable config_from_pretrained :
  string → string → LanguageBindVideoTower.Config.
Import LanguageBindVideoTower.
Implicit Types (self : LanguageBindVideoTower.t Data).
Implicit Types (tower : LanguageBindVideoTower.VisionModel Data).
Implicit Types (video x h : Tensor.t Data).

Lemma to_dtype_same x dt :
  Tensor.dtype x = dt → Tensor.to_dtype cast x dt = x.
Proof. intros H. unfold Tensor.to_dtype. by rewrite decide_True. Qed.

Lemma to_dtype_dtype x dt : Tensor.dtype (Tensor.to_dtype cast x dt) = dt.
Proof. unfold Tensor.to_dtype. by case_decide. Qed.

Lemma dtype_loaded self tower :
  video_tower self = Some tower → dtype self = OK (tower_dtype tower).
Proof. intros H. unfold dtype. by rewrite H. Qed.

Lemma device_loaded self tower :
  video_tower self = Some tower → device self = OK (tower_device tower).
Proof. intros H. unfold device. by rewrite H. Qed.

Lemma config_loaded self tower :
  is_loaded self = true → video_tower self = Some tower →
  config self = OK (vision_config tower).
Proof. intros Hl H. unfold config. by rewrite Hl, H. Qed.

Lemma load_model_loaded self :
  is_loaded (load_model video_from_pretrained self) = true ∧
  video_tower (load_model video_from_pretrained self) =
    Some (vision_model
            (video_from_pretrained (video_tower_name self) (cache_dir self))).
Proof. done. Qed.

Lemma forward_one_loaded self tower video :
  video_tower self = Some tower →
  forward_one cast self video =
    selected cast self tower
      (Tensor.unsqueeze0
         (Tensor.to cast video (tower_device tower) (tower_dtype tower)))
      (Tensor.dtype video).
Proof.
  intros H. unfold forward_one, selected, feature_select.
  rewrite (dtype_loaded _ _ H), (device_loaded _ _ H), H. simpl.
  by destruct (py_index _ _).
Qed.

Lemma forward_batch_loaded self tower video :
  video_tower self = Some tower →
  forward_batch cast self video =
    selected cast self tower
      (Tensor.to cast video (tower_device tower) (tower_dtype tower))
      (Tensor.dtype video).
Proof.
  intros H. unfold forward_batch, selected, feature_select.
  rewrite (dtype_loaded _ _ H), (device_loaded _ _ H), H. simpl.
  by destruct (py_index _ _).
Qed.

Lemma forward_list_mapM self videos acc :
  forward_list cast self videos acc =
    (fs ← mapM (forward_one cast self) videos; mret (acc ++ fs)).
Proof.
  revert acc. induction videos as [|v videos IH]; intros acc; simpl.
  - by rewrite app_nil_r.
  - destruct (forward_one cast self v) as [f|e]; simpl; [|done].
    rewrite IH. destruct (mapM _ videos); simpl; [|done].
    by rewrite <- app_assoc.
Qed.

Lemma forward_VideoList self tower videos :
  video_tower self = Some tower →
  forward cast self (VideoList videos) =
    FeatureList <$>
      mapM (λ video,
              selected cast self tower
                (Tensor.unsqueeze0
                   (Tensor.to cast video (tower_device tower) (tower_dtype tower)))
                (Tensor.dtype video)) videos.
Proof.
  intros H. simpl. rewrite forward_list_mapM.
  assert (mapM (forward_one cast self) videos =
          mapM (λ video,
              selected cast self tower
                (Tensor.unsqueeze0
                   (Tensor.to cast video (tower_device tower) (tower_dtype tower)))
                (Tensor.dtype video)) videos) as ->.
  { induction videos as [|v videos IH]; simpl; [done|].
    by rewrite IH, (forward_one_loaded _ _ _ H). }
  by destruct (mapM _ videos).
Qed.

Lemma forward_VideoBatch self tower video :
  video_tower self = Some tower →
  forward cast self (VideoBatch video) =
    FeatureBatch <$>
      selected cast self tower
        (Tensor.to cast video (tower_device tower) (tower_dtype tower))
        (Tensor.dtype video).
Proof.
  intros H. simpl. rewrite (forward_batch_loaded _ _ _ H).
  by destruct (selected _ _ _ _ _).
Qed.

Lemma forward_with_select_feature s self videos :
  forward cast (with_select_feature s self) videos = forward cast self videos.
Proof.
  destruct videos as [videos|video]; simpl; [|done].
  assert (∀ acc, forward_list cast (with_select_feature s self) videos acc
                 = forward_list cast self videos acc) as ->; [|done].
  induction videos as [|v videos IH]; intros acc; simpl; [done|].
  change (forward_one cast (with_select_feature s self) v)
    with (forward_one cast self v).
  destruct (forward_one cast self v); simpl; [apply IH|done].
Qed.

Lemma init_with_select_feature name layer feature delay_load cache :
  __init__ video_from_pretrained config_from_pretrained name
    {| mm_vision_select_layer := layer; mm_vision_select_feature := feature |}
    delay_load cache =
  with_select_feature (default "patch" feature)
    (__init__ video_from_pretrained config_from_pretrained name
       {| mm_vision_select_layer := layer; mm_vision_select_feature := None |}
       delay_load cache).
Proof. by destruct delay_load. Qed.

(** ** C3 *)

(** C3 (amended): on a loaded tower, [forward] calls the video encoder
    with [output_hidden_states=True], takes the hidden states of the
    layer at the index [select_layer] (which is
    [args.mm_vision_select_layer]; [IndexError] when there is no such
    layer) and returns them converted to the element type of the
    input, which leaves them unchanged when they already have it; for
    a list of videos it does so for each video. *)
Theorem C3_selected_layer self tower :
  video_tower self = Some tower →
  let dev := tower_device tower in
  let dt := tower_dtype tower in
  (∀ videos,
     forward cast self (VideoBatch videos) =
       (h ← py_index
              (hidden_states (call tower (Tensor.to cast videos dev dt) true))
              (select_layer self);
        mret (FeatureBatch (Tensor.to_dtype cast h (Tensor.dtype videos))))) ∧
  (∀ videos,
     forward cast self (VideoList videos) =
       (video_features ←
          mapM (λ video,
                  h ← py_index
                         (hidden_states
                            (call tower
                               (Tensor.unsqueeze0 (Tensor.to cast video dev dt))
                               true))
                         (select_layer self);
                  mret (Tensor.to_dtype cast h (Tensor.dtype video))) videos;
        mret (FeatureList video_features))) ∧
  (∀ (hs : list (Tensor.t Data)) h,
     py_index hs (select_layer self) = OK h ↔
     (- Z.of_nat (length hs) ≤ select_layer self < Z.of_nat (length hs))%Z ∧
     hs !! Z.to_nat (if (select_layer self <? 0)%Z
                     then select_layer self + Z.of_nat (length hs)
                     else select_layer self)%Z = Some h) ∧
  (∀ hs : list (Tensor.t Data),
     ¬ (- Z.of_nat (length hs) ≤ select_layer self < Z.of_nat (length hs))%Z →
     py_index hs (select_layer self) = Raise IndexError) ∧
  (∀ h d, Tensor.dtype h = d → Tensor.to_dtype cast h d = h) ∧
  (∀ name args delay_load cache,
     select_layer
       (__init__ video_from_pretrained config_from_pretrained
          name args delay_load cache)
     = mm_vision_select_layer args).
Proof.
  intros H dev dt. split; [|split; [|split; [|split; [|split]]]].
  - intros videos. rewrite (forward_VideoBatch _ _ _ H). unfold selected.
    by destruct (py_index _ _).
  - intros videos. rewrite (forward_VideoList _ _ _ H). unfold selected.
    by destruct (mapM _ videos).
  - intros hs h. apply py_index_spec.
  - intros hs. apply py_index_Raise.
  - intros h d. apply to_dtype_same.
  - intros name args [] cache; reflexivity.
Qed.

(** ** C6 *)

(** C6 (amended): on a loaded tower the properties [dtype] and
    [device] return the element type and the device of the wrapped
    encoder's [class_embedding] parameter, and [hidden_size] returns
    the hidden size of the wrapped encoder's configuration, all
    unchanged. *)
Theorem C6_passthrough self tower :
  is_loaded self = true →
  video_tower self = Some tower →
  dtype self = OK (Tensor.dtype (class_embedding (embeddings tower))) ∧
  device self = OK (Tensor.device (class_embedding (embeddings tower))) ∧
  config self = OK (vision_config tower) ∧
  hidden_size self = OK (cfg_hidden_size (vision_config tower)).
Proof.
  intros Hl H. repeat split.
  - apply (dtype_loaded _ _ H).
  - apply (device_loaded _ _ H).
  - apply (config_loaded _ _ Hl H).
  - unfold hidden_size. by rewrite (config_loaded _ _ Hl H).
Qed.

(** ** C7 *)

(** C7: [forward] branches on the type of its argument.  For a list of
    videos it returns a list, with one entry per video in the same
    order, each obtained by running the encoder on that video alone
    with a leading dimension of size one added; for a single batched
    tensor it runs the encoder once on the whole tensor and returns a
    single tensor. *)
Theorem C7_list_or_batch self tower :
  video_tower self = Some tower →
  let dev := tower_device tower in
  let dt := tower_dtype tower in
  (∀ videos out,
     forward cast self (VideoList videos) = OK out ↔
     ∃ video_features,
       out = FeatureList video_features ∧
       Forall2 (λ video video_feature,
                  selected cast self tower
                    (Tensor.unsqueeze0 (Tensor.to cast video dev dt))
                    (Tensor.dtype video) = OK video_feature)
               videos video_features) ∧
  (∀ x, Tensor.shape (Tensor.unsqueeze0 x) = 1 :: Tensor.shape x) ∧
  (∀ videos out,
     forward cast self (VideoBatch videos) = OK out ↔
     ∃ video_features,
       out = FeatureBatch video_features ∧
       selected cast self tower (Tensor.to cast videos dev dt)
         (Tensor.dtype videos) = OK video_features).
Proof.
  intros H dev dt. repeat split.
  - rewrite (forward_VideoList _ _ _ H).
    destruct (mapM _ videos) as [fs|e] eqn:Hm; simpl; [|done].
    intros [= <-]. exists fs. split; [done|]. by apply mapM_result_OK.
  - intros (fs & -> & Hfs). rewrite (forward_VideoList _ _ _ H).
    apply mapM_result_OK in Hfs. fold dev dt. by rewrite Hfs.
  - rewrite (forward_VideoBatch _ _ _ H).
    destruct (selected _ _ _ _ _) as [f|e] eqn:Hs; simpl; [|done].
    intros [= <-]. by exists f.
  - intros (f & -> & Hf). rewrite (forward_VideoBatch _ _ _ H).
    fold dev dt. by rewrite Hf.
Qed.

(** ** C9 *)

(** C9: the configured [select_feature] has no effect.  The feature
    selection returns the whole hidden state at [select_layer]; a tower
    with another [select_feature] selects and returns the same, errors
    included; and two towers built from arguments that differ only in
    [mm_vision_select_feature] return the same for the same input. *)
Theorem C9_select_feature_ignored :
  (∀ self video_forward_outs,
     feature_select self video_forward_outs =
       py_index (hidden_states video_forward_outs) (select_layer self)) ∧
  (∀ s self video_forward_outs,
     feature_select (with_select_feature s self) video_forward_outs =
       feature_select self video_forward_outs) ∧
  (∀ s self videos,
     forward cast (with_select_feature s self) videos =
       forward cast self videos) ∧
  (∀ name layer feature1 feature2 delay_load cache videos,
     forward cast
       (__init__ video_from_pretrained config_from_pretrained name
          {| mm_vision_select_layer := layer;
             mm_vision_select_feature := feature1 |} delay_load cache)
       videos =
     forward cast
       (__init__ video_from_pretrained config_from_pretrained name
          {| mm_vision_select_layer := layer;
             mm_vision_select_feature := feature2 |} delay_load cache)
       videos).
Proof.
  repeat split.
  - intros self outs. unfold feature_select. by destruct (py_index _ _).
  - intros s self videos. apply forward_with_select_feature.
  - intros name layer f1 f2 delay cache videos.
    rewrite (init_with_select_feature name layer f1),
            (init_with_select_feature name layer f2).
    by rewrite !forward_with_select_feature.
Qed.
End Tower.

(** ** C5 *)

(** C5: the three registry dictionaries have the same key set, the
    five modality names; under each name they hold the config class,
    the model class and the processor class of that modality; and the
    constructor's loop body instantiates, for a key of the registry,
    the model class registered under that key. *)
Theorem C5_registry :
  dom config_dict = registry_keys ∧
  dom model_dict = registry_keys ∧
  dom transform_dict = registry_keys ∧
  (∀ k, k ∈ registry_keys →
     ∃ c m p,
       config_dict !! k = Some c ∧ config_package c = k ∧
       model_dict !! k = Some m ∧ model_package m = k ∧
       transform_dict !! k = Some p ∧ processor_package p = k) ∧
  (∀ (F Input ModelConfig : Type)
     (from_pretrained :
        ModelClass → string → string →
        LanguageBind.Pretrained F Input ModelConfig)
     (cache_dir : string)
     (st : LanguageBind.InitState F Input ModelConfig)
     (k v : string),
     k ∈ registry_keys →
     ∃ m st',
       model_dict !! k = Some m ∧
       LanguageBind.init_step from_pretrained cache_dir st k v = OK st' ∧
       LanguageBind.st_model st'
         = Some (from_pretrained m ("LanguageBind/" +:+ v) cache_dir)).
Proof.
  destruct registry_dom as (Hc & Hm & Ht).
  split; [done|]. split; [done|]. split; [done|]. split.
  - intros k Hk.
    apply registry_cases in Hk as [-> | [-> | [-> | [-> | ->]]]];
      eexists _, _, _; repeat split; reflexivity.
  - intros F Input ModelConfig from_pretrained cache_dir st k v Hk.
    apply registry_lookup in Hk as [m Hm'].
    eexists m, _. split; [done|]. split.
    + apply init_step_OK. exists m. split; [done|]. reflexivity.
    + reflexivity.
Qed.

(** * The code on concrete inputs *)

Lemma example_init (use_temp : bool) :
  LanguageBind.__init__ Example.hub [("image", "LanguageBind_Image")]
    use_temp "./cache_dir"
  = OK (Example.image_module use_temp,
        [ {| LanguageBind.load_class := LanguageBindImage;
             LanguageBind.load_ckpt := "LanguageBind/LanguageBind_Image";
             LanguageBind.load_cache_dir := "./cache_dir" |} ]).
Proof. reflexivity. Defined.

Lemma example_forward (use_temp : bool) :
  LanguageBind.forward (Example.image_module use_temp) Example.image_inputs
  = OK (Example.image_outputs use_temp).
Proof. by destruct use_temp. Defined.

Lemma example_registered :
  Forall (λ k, k ∈ registry_keys) (keys [("image", "LanguageBind_Image")]).
Proof.
  constructor; [|constructor]. apply (bool_decide_unpack _). by vm_compute.
Defined.

Lemma C2_witness :
  ∃ (value : Batch Example.Sym) encoder proj,
    ("image", value) ∈ Example.image_inputs ∧
    LanguageBind.modality_encoder (Example.image_module true) !! "image"
      = Some encoder ∧
    LanguageBind.modality_proj (Example.image_module true) !! "image"
      = Some proj ∧
    let e := map (λ r, map (λ x, fdiv x (fnorm r)) r)
               (proj (LanguageBind.pooler_output (encoder value))) in
    (true = true → "image" ≠ "language" →
     ∃ scale,
       LanguageBind.modality_scale (Example.image_module true) !! "image"
         = Some scale ∧
       mul_scalar (normalize Example.image_value) (fexp (Example.Num 1))
         = map (map (λ x, fmul x (fexp scale))) e) ∧
    (true = true → "image" = "language" →
     mul_scalar (normalize Example.image_value) (fexp (Example.Num 1)) = e) ∧
    (true = false →
     mul_scalar (normalize Example.image_value) (fexp (Example.Num 1)) = e).
Proof.
  apply (C2_temperature_scaling (Example.image_module true)
           Example.image_inputs (Example.image_outputs true) "image").
  - apply NoDup_singleton.
  - apply (example_forward true).
  - apply lookup_insert_eq.
Defined.

(** C4, the claim as stated, is false: ['language'] is not a key of
    the registry, and the constructor raises [KeyError] on it. *)
Lemma C4_counterexample :
  [("language", "LanguageBind_Image")] ≠ [] ∧
  LanguageBind.__init__ Example.hub [("language", "LanguageBind_Image")]
    true "./cache_dir" = Raise (KeyError "language").
Proof. split; [done|reflexivity]. Qed.

Lemma C4_witness :
  ∃ self loads,
    LanguageBind.__init__ Example.hub [("image", "LanguageBind_Image")]
      true "./cache_dir" = OK (self, loads) ∧
    Forall2 (LanguageBind.call_of "./cache_dir")
      [("image", "LanguageBind_Image")] loads ∧
    ∀ k v, (k, v) ∈ [("image", "LanguageBind_Image")] →
      LanguageBind.stored Example.hub "./cache_dir" k v
        (LanguageBind.modality_encoder self) (LanguageBind.modality_proj self)
        (LanguageBind.modality_scale self) (LanguageBind.modality_config self).
Proof.
  apply (C4_constructor_stores Example.hub
           [("image", "LanguageBind_Image")] true "./cache_dir").
  - done.
  - apply NoDup_singleton.
  - apply example_registered.
Defined.

Lemma C8_witness :
  ∃ self loads cls,
    LanguageBind.__init__ Example.hub
      ([("image", "LanguageBind_Image")] ++ [("video", "LanguageBind_Video")])
      true "./cache_dir" = OK (self, loads) ∧
    model_dict !! "video" = Some cls ∧
    LanguageBind.modality_encoder self !! "language"
      = Some (LanguageBind.text_model
                (LanguageBind.load Example.hub "./cache_dir" cls
                   "LanguageBind_Video")) ∧
    LanguageBind.modality_proj self !! "language"
      = Some (LanguageBind.text_projection
                (LanguageBind.load Example.hub "./cache_dir" cls
                   "LanguageBind_Video")).
Proof.
  apply (proj1 (C8_language_from_last Example.hub true "./cache_dir")
           [("image", "LanguageBind_Image")] "video" "LanguageBind_Video").
  repeat constructor; apply (bool_decide_unpack _); by vm_compute.
Defined.

(** C10, the claim as stated, is false: ['audio'] was not requested
    from the constructor, and [forward] raises [KeyError] on it. *)
Lemma C10_counterexample :
  ∃ loads,
    LanguageBind.__init__ Example.hub [("image", "LanguageBind_Image")]
      true "./cache_dir" = OK (Example.image_module true, loads) ∧
    LanguageBind.forward (Example.image_module true) [("audio", Example.image_value)]
      = Raise (KeyError "audio").
Proof. eexists. split; [apply example_init|reflexivity]. Qed.

Lemma C10_witness :
  ∃ outputs,
    LanguageBind.forward (Example.image_module true) Example.image_inputs
      = OK outputs ∧
    dom outputs = list_to_set (keys Example.image_inputs).
Proof.
  apply (C10_same_keys Example.hub [("image", "LanguageBind_Image")] true
           "./cache_dir" (Example.image_module true) _ Example.image_inputs
           (example_init true)).
  intros k Hk. left. exact Hk.
Defined.

Lemma C5_witness :
  ∃ c m p,
    config_dict !! "video" = Some c ∧ config_package c = "video" ∧
    model_dict !! "video" = Some m ∧ model_package m = "video" ∧
    transform_dict !! "video" = Some p ∧ processor_package p = "video".
Proof.
  apply (proj1 (proj2 (proj2 (proj2 C5_registry)))).
  apply (bool_decide_unpack _). by vm_compute.
Defined.

Lemma example_tower_loaded :
  LanguageBindVideoTower.is_loaded Example.tower = true ∧
  LanguageBindVideoTower.video_tower Example.tower
    = Some Example.video_encoder.
Proof. split; reflexivity. Defined.

(** C3, the claim as stated, is false: the encoder's parameters are
    [float16], the input is [float32], and what [forward] returns is
    not the selected hidden state but its conversion to [float32]. *)
Lemma C3_counterexample :
  py_index
    (LanguageBindVideoTower.hidden_states
       (LanguageBindVideoTower.call Example.video_encoder
          (Tensor.to Example.keep Example.video (cuda 0) float16) true))
    (LanguageBindVideoTower.select_layer Example.tower)
    = OK Example.video_hidden ∧
  LanguageBindVideoTower.forward Example.keep Example.tower
    (LanguageBindVideoTower.VideoBatch Example.video)
    = OK (LanguageBindVideoTower.FeatureBatch Example.video_feature) ∧
  Example.video_feature ≠ Example.video_hidden.
Proof. repeat split; [reflexivity..|done]. Qed.

Lemma C3_witness :
  LanguageBindVideoTower.forward Example.keep Example.tower
    (LanguageBindVideoTower.VideoBatch Example.video)
  = (h ← py_index
           (LanguageBindVideoTower.hidden_states
              (LanguageBindVideoTower.call Example.video_encoder
                 (Tensor.to Example.keep Example.video
                    (LanguageBindVideoTower.tower_device Example.video_encoder)
                    (LanguageBindVideoTower.tower_dtype Example.video_encoder))
                 true))
           (LanguageBindVideoTower.select_layer Example.tower);
     mret (LanguageBindVideoTower.FeatureBatch
             (Tensor.to_dtype Example.keep h (Tensor.dtype Example.video)))).
Proof.
  apply (proj1 (C3_selected_layer Example.keep Example.video_hub
                  Example.config_hub Example.tower Example.video_encoder
                  (proj2 example_tower_loaded))).
Defined.

(** C6, the claim as stated, is false: two loaded towers whose
    encoders have the same configuration return different [dtype] and
    [device]; these are read from the encoder's parameter, not from
    its configuration. *)
Lemma C6_counterexample :
  LanguageBindVideoTower.is_loaded Example.tower = true ∧
  LanguageBindVideoTower.is_loaded Example.tower_cpu = true ∧
  LanguageBindVideoTower.config Example.tower = OK Example.video_config ∧
  LanguageBindVideoTower.config Example.tower_cpu = OK Example.video_config ∧
  LanguageBindVideoTower.dtype Example.tower = OK float16 ∧
  LanguageBindVideoTower.dtype Example.tower_cpu = OK float32 ∧
  LanguageBindVideoTower.device Example.tower = OK (cuda 0) ∧
  LanguageBindVideoTower.device Example.tower_cpu = OK cpu.
Proof. repeat split. Qed.

Lemma C6_witness :
  LanguageBindVideoTower.dtype Example.tower = OK float16 ∧
  LanguageBindVideoTower.device Example.tower = OK (cuda 0) ∧
  LanguageBindVideoTower.config Example.tower = OK Example.video_config ∧
  LanguageBindVideoTower.hidden_size Example.tower = OK 1024%Z.
Proof.
  apply (C6_passthrough Example.tower Example.video_encoder
           (proj1 example_tower_loaded) (proj2 example_tower_loaded)).
Defined.

Lemma C7_witness :
  LanguageBindVideoTower.forward Example.keep Example.tower
    (LanguageBindVideoTower.VideoList [Example.video; Example.video])
  = OK (LanguageBindVideoTower.FeatureList
          [Example.video_feature_1; Example.video_feature_1]).
Proof.
  apply (proj1 (C7_list_or_batch Example.keep Example.tower
                  Example.video_encoder (proj2 example_tower_loaded))).
  eexists. split; [reflexivity|].
  repeat constructor.
Defined.

(** * Further properties of the code *)

(** ** The registry, read backwards *)

(** Every class of the registry is registered under the name of its
    own modality and under no other name: looking a name up yields a
    class exactly when the class belongs to that modality. *)
Theorem registry_round_trip :
  (∀ k c, config_dict !! k = Some c ↔ config_package c = k) ∧
  (∀ k m, model_dict !! k = Some m ↔ model_package m = k) ∧
  (∀ k p, transform_dict !! k = Some p ↔ processor_package p = k).
Proof.
  destruct registry_dom as (Hc & Hm & Ht).
  split; [|split]; intros k c; split.
  - intros H. assert (k ∈ registry_keys) as Hk
      by (rewrite <- Hc; apply elem_of_dom; eauto).
    apply registry_cases in Hk as [-> | [-> | [-> | [-> | ->]]]];
      vm_compute in H; by injection H as <-.
  - intros <-. by destruct c.
  - intros H. assert (k ∈ registry_keys) as Hk
      by (rewrite <- Hm; apply elem_of_dom; eauto).
    apply registry_cases in Hk as [-> | [-> | [-> | [-> | ->]]]];
      vm_compute in H; by injection H as <-.
  - intros <-. by destruct c.
  - intros H. assert (k ∈ registry_keys) as Hk
      by (rewrite <- Ht; apply elem_of_dom; eauto).
    apply registry_cases in Hk as [-> | [-> | [-> | [-> | ->]]]];
      vm_compute in H; by injection H as <-.
  - intros <-. by destruct c.
Qed.

(** ** When the constructor succeeds and how it fails *)

Section ConstructorMore.
Context {F : Type} {A : Arith F} {Input ModelConfig : Type}.
Variable from_pretrained :
  ModelClass → string → string → LanguageBind.Pretrained F Input ModelConfig.
Import LanguageBind.
Implicit Types (self : LanguageBind.t F Input ModelConfig).
Implicit Types (clip_type items : list (string * string)).

Lemma init_loop_raise_first cache_dir items1 k v items2
    (st : LanguageBind.InitState F Input ModelConfig) :
  Forall (λ k, k ∈ registry_keys) (keys items1) →
  k ∉ registry_keys →
  init_loop from_pretrained cache_dir (items1 ++ (k, v) :: items2) st
    = Raise (KeyError k).
Proof.
  intros Hall Hk. rewrite init_loop_app.
  destruct (init_loop_total from_pretrained cache_dir items1 st Hall)
    as [st' ->]. simpl.
  unfold init_step, getitem.
  destruct (model_dict !! k) eqn:Hm; [|done].
  destruct Hk. apply registry_lookup. by rewrite Hm.
Qed.

(** The constructor returns a module exactly when [clip_type] is not
    empty and all its keys are keys of the registry. *)
Theorem constructor_succeeds_iff clip_type use_temp cache_dir :
  (∃ self loads,
     __init__ from_pretrained clip_type use_temp cache_dir = OK (self, loads)) ↔
  clip_type ≠ [] ∧ Forall (λ k, k ∈ registry_keys) (keys clip_type).
Proof.
  split.
  - intros (self & loads & Hinit).
    apply init_OK in Hinit as (st & model & Hst & Hm & _). split.
    + intros ->. simpl in Hst. injection Hst as <-. done.
    + by eapply init_loop_registered.
  - intros [Hne Hall]. by apply init_total.
Qed.

(** The constructor raises [KeyError] for the first key of
    [clip_type], in iteration order, that the registry does not have,
    whatever follows it. *)
Theorem constructor_raises_first_unregistered
    items1 k v items2 use_temp cache_dir :
  Forall (λ k, k ∈ registry_keys) (keys items1) →
  k ∉ registry_keys →
  __init__ from_pretrained (items1 ++ (k, v) :: items2) use_temp cache_dir
    = Raise (KeyError k).
Proof.
  intros Hall Hk. unfold __init__.
  by rewrite (init_loop_raise_first _ _ _ _ _ _ Hall Hk).
Qed.

Lemma init_loop_exceptions cache_dir items
    (st : LanguageBind.InitState F Input ModelConfig) e :
  init_loop from_pretrained cache_dir items st = Raise e →
  ∃ k, k ∈ keys items ∧ (k ∉ registry_keys) ∧ e = KeyError k.
Proof.
  revert st. induction items as [|[k v] items IH]; intros st; simpl; [done|].
  unfold init_step at 1, getitem.
  destruct (model_dict !! k) eqn:Hk; simpl.
  - intros (k' & ? & ? & ->)%IH. exists k'. split; [by right|done].
  - intros [= <-]. exists k. split; [by left|]. split; [|done].
    rewrite registry_lookup, Hk. by intros [? ?].
Qed.

Lemma init_loop_model_bound cache_dir items
    (st st' : LanguageBind.InitState F Input ModelConfig) :
  items ≠ [] →
  init_loop from_pretrained cache_dir items st = OK st' →
  is_Some (st_model st').
Proof.
  intros Hne Hst.
  destruct items as [|[k v] items _] using rev_ind; [done|].
  destruct (init_loop_model_last _ _ _ _ _ _ _ Hst) as (cls & _ & ->). eauto.
Qed.

(** The exceptions of the constructor are [UnboundLocalError], on an
    empty [clip_type] only, and [KeyError], for a key of [clip_type]
    outside the registry only. *)
Theorem constructor_exceptions clip_type use_temp cache_dir e :
  __init__ from_pretrained clip_type use_temp cache_dir = Raise e →
  (clip_type = [] ∧ e = UnboundLocalError "model") ∨
  (∃ k, k ∈ keys clip_type ∧ (k ∉ registry_keys) ∧ e = KeyError k).
Proof.
  unfold __init__.
  destruct (init_loop from_pretrained cache_dir clip_type init_state)
    as [st|e'] eqn:Hl; simpl.
  - destruct (st_model st) as [model|] eqn:Hm; [done|].
    intros [= <-]. left. split; [|done].
    destruct clip_type as [|item items]; [done|].
    assert (item :: items ≠ []) as Hne by done.
    destruct (init_loop_model_bound _ _ _ _ Hne Hl) as [? Hs].
    congruence.
  - intros [= <-]. right. by eapply init_loop_exceptions.
Qed.

(** What the module holds after construction: an encoder and a
    projection for every key of [clip_type] and for ['language'], a
    logit scale and a config for the keys of [clip_type] only - none
    for ['language'] - and one hub call per item was made. *)
Theorem constructor_key_sets clip_type use_temp cache_dir self loads :
  __init__ from_pretrained clip_type use_temp cache_dir = OK (self, loads) →
  dom (modality_encoder self) = list_to_set (keys clip_type) ∪ {["language"]} ∧
  dom (modality_proj self) = list_to_set (keys clip_type) ∪ {["language"]} ∧
  dom (modality_scale self) = list_to_set (keys clip_type) ∧
  dom (modality_config self) = list_to_set (keys clip_type) ∧
  modality_scale self !! "language" = None ∧
  modality_config self !! "language" = None ∧
  LanguageBind.use_temp self = use_temp ∧
  length loads = length clip_type.
Proof.
  intros Hinit.
  destruct (init_dom _ _ _ _ _ _ Hinit) as (He & Hp & Hs & Hc).
  pose proof Hinit as (st & model & Hst & _ & -> & ->)%init_OK.
  assert ("language" ∉ keys clip_type) as Hl.
  { intros Hin. apply language_not_registered.
    apply init_loop_registered in Hst.
    by apply (proj1 (Forall_forall _ _) Hst). }
  repeat split; try done.
  - apply not_elem_of_dom. rewrite Hs. set_solver.
  - apply not_elem_of_dom. rewrite Hc. set_solver.
  - destruct (init_loop_loads _ _ _ _ _ Hst) as (calls & -> & Hcalls).
    simpl. symmetry. by eapply Forall2_length.
Qed.
End ConstructorMore.

(** ** When the forward pass succeeds and how it fails *)

Section ForwardMore.
Context {F : Type} {A : Arith F} {Input ModelConfig : Type}.
Import LanguageBind.
Implicit Types (self : LanguageBind.t F Input ModelConfig).
Implicit Types (inputs items : list (string * Input)).
Implicit Types (outputs out : gmap string (Batch F)).

Lemma forward_loop_app self items1 items2 outputs :
  forward_loop self (items1 ++ items2) outputs =
  (out ← forward_loop self items1 outputs; forward_loop self items2 out).
Proof.
  revert outputs. induction items1 as [|[k v] items1 IH]; intros outputs;
    simpl; [done|].
  destruct (forward_step self outputs k v); simpl; [apply IH|done].
Qed.

Lemma forward_step_servable self outputs key value out :
  forward_step self outputs key value = OK out → servable self key.
Proof.
  intros (enc & proj & b & He & Hp & Ht & _)%forward_step_OK.
  unfold servable, Encoder, Projection in *.
  rewrite He, Hp. repeat split; eauto.
  intros Hu Hk.
  apply temperature_cases in Ht as [(_ & _ & s & -> & _)|[[?|?] _]];
    [eauto|congruence..].
Qed.

Lemma forward_step_not_servable self outputs key value :
  ¬ servable self key →
  forward_step self outputs key value = Raise (KeyError key).
Proof.
  intros Hn. destruct (forward_step self outputs key value) as [out|e] eqn:Hs.
  - destruct Hn. by eapply forward_step_servable.
  - by apply forward_step_raise in Hs as ->.
Qed.

Lemma forward_loop_servable self items outputs out :
  forward_loop self items outputs = OK out →
  Forall (servable self) (keys items).
Proof.
  revert outputs. induction items as [|[k v] items IH]; intros outputs; simpl.
  - constructor.
  - intros (o' & Hs & Hl)%bind_OK. constructor; [|by eapply IH].
    by eapply forward_step_servable.
Qed.

(** [forward] returns a dict exactly when the module has, for every
    input key, an encoder and a projection and - where the temperature
    applies - a logit scale. *)
Theorem forward_succeeds_iff self inputs :
  (∃ outputs, forward self inputs = OK outputs) ↔
  Forall (servable self) (keys inputs).
Proof.
  split.
  - intros [outputs Hf]. by eapply forward_loop_servable.
  - apply forward_loop_total.
Qed.

(** [forward] raises [KeyError] for the first input key, in iteration
    order, that the module cannot serve, whatever follows it. *)
Theorem forward_raises_first_unserved self items1 key value items2 :
  Forall (servable self) (keys items1) →
  ¬ servable self key →
  forward self (items1 ++ (key, value) :: items2) = Raise (KeyError key).
Proof.
  intros Hall Hn. unfold forward. rewrite forward_loop_app.
  destruct (forward_loop_total self items1 ∅ Hall) as [out ->]. simpl.
  by rewrite (forward_step_not_servable _ _ _ _ Hn).
Qed.

(** The only exception of [forward] is [KeyError], for an input key. *)
Theorem forward_exceptions self inputs e :
  forward self inputs = Raise e →
  ∃ key, key ∈ keys inputs ∧ ¬ servable self key ∧ e = KeyError key.
Proof.
  unfold forward. generalize (∅ : gmap string (Batch F)).
  induction inputs as [|[k v] inputs IH]; intros outputs; simpl; [done|].
  destruct (forward_step self outputs k v) as [out|e'] eqn:Hs; simpl.
  - intros (key & ? & ? & ->)%IH. exists key. split; [by right|done].
  - intros [= <-]. pose proof (forward_step_raise _ _ _ _ _ Hs) as ->.
    exists k. split; [by left|]. split; [|done].
    intros Hserv.
    destruct (forward_loop_total self [(k, v)] outputs) as [out Hout].
    { by constructor. }
    simpl in Hout. rewrite Hs in Hout. done.
Qed.

(** The embedding of a modality does not depend on the other inputs:
    what [forward] stores under a key is what it returns for that key's
    input alone. *)
Theorem forward_one_key_alone self inputs outputs key value :
  NoDup (keys inputs) →
  forward self inputs = OK outputs →
  (key, value) ∈ inputs →
  ∃ b, outputs !! key = Some b ∧
       forward self [(key, value)] = OK {[ key := b ]}.
Proof.
  intros Hnd Hf Hin.
  destruct (forward_loop_in _ _ _ _ _ _ Hnd Hf Hin)
    as (enc & proj & b & He & Hp & Ht & Hb).
  exists b. split; [done|].
  unfold forward. simpl. apply bind_OK. exists {[ key := b ]}. split; [|done].
  apply forward_step_OK. by exists enc, proj, b.
Qed.

(** The order of the inputs does not matter: on the same items in
    another order [forward] returns the same mapping. *)
Theorem forward_order_irrelevant self inputs inputs' outputs :
  NoDup (keys inputs) →
  inputs ≡ₚ inputs' →
  forward self inputs = OK outputs →
  forward self inputs' = OK outputs.
Proof.
  intros Hnd Hperm Hf.
  assert (keys inputs ≡ₚ keys inputs') as Hkeys
    by (unfold keys; by rewrite Hperm).
  destruct (forward_loop_total self inputs' ∅) as [outputs' Hf'].
  { rewrite <- Hkeys. by eapply forward_loop_servable. }
  unfold forward. rewrite Hf'. f_equal. apply map_eq. intros k.
  destruct (decide (k ∈ keys inputs)) as [Hk|Hk].
  - apply elem_of_keys in Hk as [v Hin].
    destruct (forward_loop_in _ _ _ _ _ _ Hnd Hf Hin)
      as (enc & proj & b & He & Hp & Ht & ->).
    assert (NoDup (keys inputs')) as Hnd' by (by rewrite <- Hkeys).
    assert ((k, v) ∈ inputs') as Hin' by (by rewrite <- Hperm).
    destruct (forward_loop_in _ _ _ _ _ _ Hnd' Hf' Hin')
      as (enc' & proj' & b' & He' & Hp' & Ht' & ->).
    unfold Encoder, Projection in *.
    rewrite He in He'. injection He' as <-.
    rewrite Hp in Hp'. injection Hp' as <-.
    rewrite Ht in Ht'. by injection Ht' as <-.
  - rewrite (forward_loop_notin _ _ _ _ _ Hf' ltac:(by rewrite <- Hkeys)).
    by rewrite (forward_loop_notin _ _ _ _ _ Hf Hk).
Qed.

(** The output under a key has the shape of the projection's output:
    as many vectors, each of the same length. *)
Theorem forward_keeps_shape self inputs outputs key value
    (encoder : Encoder F Input) (proj : Projection F) :
  NoDup (keys inputs) →
  forward self inputs = OK outputs →
  (key, value) ∈ inputs →
  modality_encoder self !! key = Some encoder →
  modality_proj self !! key = Some proj →
  ∃ b : Batch F, outputs !! key = Some b ∧
    Forall2 (λ r r' : Row F, length r = length r')
      b (proj (pooler_output (encoder value))).
Proof.
  intros Hnd Hf Hin He Hp.
  destruct (forward_loop_in _ _ _ _ _ _ Hnd Hf Hin)
    as (enc' & proj' & b & He' & Hp' & Ht & Hb).
  unfold Encoder, Projection in *.
  rewrite He in He'. injection He' as <-.
  rewrite Hp in Hp'. injection Hp' as <-.
  exists b. split; [done|].
  assert (∀ value : Batch F,
            Forall2 (λ r r' : Row F, length r = length r')
              (normalize value) value) as Hnorm.
  { intros w. unfold normalize. induction w as [|r w IH]; simpl;
      constructor; [by rewrite length_map|done]. }
  assert (∀ (value : Batch F) s,
            Forall2 (λ r r' : Row F, length r = length r')
              (mul_scalar (normalize value) s) value) as Hmul.
  { intros w s. unfold mul_scalar, normalize.
    induction w as [|r w IH]; simpl;
      constructor; [by rewrite !length_map|done]. }
  apply temperature_cases in Ht as [(_ & _ & s & _ & ->)|[_ ->]].
  - apply Hmul.
  - apply Hnorm.
Qed.
End ForwardMore.

(** ** The constructor and the forward pass together *)

Section EndToEnd.
Context {F : Type} {A : Arith F} {Input ModelConfig : Type}.
Variable from_pretrained :
  ModelClass → string → string → LanguageBind.Pretrained F Input ModelConfig.
Import LanguageBind.
Implicit Types (self : LanguageBind.t F Input ModelConfig).
Implicit Types (clip_type items : list (string * string)).

Lemma init_stored clip_type use_temp cache_dir self loads k v :
  NoDup (keys clip_type) →
  __init__ from_pretrained clip_type use_temp cache_dir = OK (self, loads) →
  (k, v) ∈ clip_type →
  k ≠ "language" ∧
  stored from_pretrained cache_dir k v
    (modality_encoder self) (modality_proj self)
    (modality_scale self) (modality_config self).
Proof.
  intros Hnd (st & model & Hst & _ & -> & _)%init_OK Hin. simpl.
  destruct (init_loop_in _ _ _ _ _ _ _ Hnd Hst Hin)
    as (cls & Hcls & He & Hp & Hs & Hc).
  assert (k ≠ "language") as Hk.
  { intros ->. apply language_not_registered, registry_lookup.
    by rewrite Hcls. }
  split; [done|]. exists cls. by rewrite !lookup_insert_ne.
Qed.

(** The embedding of a modality, from construction to output: on a
    module built from [clip_type], the input [x] under a key [k] of
    [clip_type] is encoded and projected by the model loaded for [k];
    every element of the result is divided by the norm of its own
    vector and, when [use_temp] is set, multiplied by the exponential
    of that model's logit scale. *)
Theorem modality_embedding clip_type use_temp cache_dir self loads k v :
  NoDup (keys clip_type) →
  __init__ from_pretrained clip_type use_temp cache_dir = OK (self, loads) →
  (k, v) ∈ clip_type →
  ∃ cls, model_dict !! k = Some cls ∧
    let model := load from_pretrained cache_dir cls v in
    ∀ x : Input,
      let p := visual_projection model (pooler_output (vision_model model x)) in
      forward self [(k, x)] =
        OK {[ k :=
                if use_temp
                then map (λ r,
                            map (λ y, fmul (fdiv y (fnorm r))
                                        (fexp (logit_scale model))) r) p
                else map (λ r, map (λ y, fdiv y (fnorm r)) r) p ]}.
Proof.
  intros Hnd Hinit Hin.
  destruct (init_stored _ _ _ _ _ _ _ Hnd Hinit Hin)
    as (Hk & cls & Hcls & He & Hp & Hs & _).
  exists cls. split; [done|]. intros model x p.
  assert (LanguageBind.use_temp self = use_temp) as Hu.
  { by apply init_OK in Hinit as (? & ? & _ & _ & -> & _). }
  unfold forward. simpl. apply bind_OK. eexists. split; [|done].
  apply forward_step_OK. eexists _, _, _.
  split; [exact He|]. split; [exact Hp|]. split; [|done].
  apply temperature_cases. rewrite Hu. destruct use_temp.
  - left. split; [done|]. split; [done|]. eexists. split; [exact Hs|].
    unfold mul_scalar, normalize. rewrite map_map.
    apply map_ext. intros r. by rewrite map_map.
  - right. split; [by left|done].
Qed.

(** The language embedding, from construction to output: on a module
    built from a [clip_type] whose last item is [(k, v)], a
    ['language'] input is encoded and projected by the text encoder
    and the text projection of the model loaded for [k], and every
    element of the result is divided by the norm of its own vector;
    it is never multiplied by a temperature, whatever [use_temp] is. *)
Theorem language_embedding items k v use_temp cache_dir :
  Forall (λ k, k ∈ registry_keys) (keys (items ++ [(k, v)])) →
  ∃ self loads cls,
    __init__ from_pretrained (items ++ [(k, v)]) use_temp cache_dir
      = OK (self, loads) ∧
    model_dict !! k = Some cls ∧
    let model := load from_pretrained cache_dir cls v in
    ∀ x : Input,
      forward self [("language", x)] =
        OK {[ "language" :=
                map (λ r, map (λ y, fdiv y (fnorm r)) r)
                  (text_projection model
                     (pooler_output (text_model model x))) ]}.
Proof.
  intros Hall.
  destruct (init_language from_pretrained items k v use_temp cache_dir Hall)
    as (self & loads & cls & Hinit & Hcls & He & Hp).
  exists self, loads, cls. split; [done|]. split; [done|]. intros model x.
  unfold forward. simpl. apply bind_OK. eexists. split; [|done].
  apply forward_step_OK. eexists _, _, _.
  split; [exact He|]. split; [exact Hp|]. split; [|done].
  apply temperature_cases. right. split; [by right|done].
Qed.
End EndToEnd.

(** ** [to_device], value by value *)

(** [to_device] moves every value and nothing else: under each key of
    [x] it holds that key's value moved to the device, and it holds
    nothing under any other key. *)
Theorem to_device_lookup {T Device : Type} (to : T → Device → T)
    (x : list (string * T)) (device : Device) :
  NoDup (keys x) →
  (∀ k v, (k, v) ∈ x → to_device to x device !! k = Some (to v device)) ∧
  (∀ k, k ∉ keys x → to_device to x device !! k = None).
Proof.
  intros Hnd.
  assert (((λ kv : string * T, (kv.1, to kv.2 device)) <$> x).*1 = keys x)
    as Hkeys.
  { unfold keys. rewrite <- list_fmap_compose. by apply list_fmap_ext. }
  split.
  - intros k v Hin. unfold to_device.
    apply elem_of_list_to_map_1; [by rewrite Hkeys|].
    apply list_elem_of_fmap. by exists (k, v).
  - intros k Hk. unfold to_device.
    apply not_elem_of_list_to_map_1. by rewrite Hkeys.
Qed.

(** ** More on the video tower *)

Lemma py_index_from_end {A : Type} (l : list A) (i : Z) :
  (0 ≤ i < Z.of_nat (length l))%Z →
  py_index l (i - Z.of_nat (length l)) = py_index l i.
Proof.
  intros Hi.
  destruct (proj1 (py_index_OK l i)) as [x Hx]; [lia|].
  rewrite Hx. apply py_index_spec. apply py_index_spec in Hx as [_ Hx].
  split; [lia|].
  rewrite (proj2 (Z.ltb_lt _ _)) by lia.
  rewrite (proj2 (Z.ltb_ge _ _)) in Hx by lia.
  by replace (i - Z.of_nat (length l) + Z.of_nat (length l))%Z with i by lia.
Qed.

Section TowerMore.
Context {Data : Type} (cast : DType → Data → Data).
Variable zeros : list Z → Device → DType → Exception + Tensor.t Data.
Variable video_from_pretrained :
  string → string → LanguageBindVideoTower.VideoModel Data.
Variable config_from_pretrained :
  string → string → LanguageBindVideoTower.Config.
Import LanguageBindVideoTower.
Implicit Types (self : LanguageBindVideoTower.t Data).
Implicit Types (tower : LanguageBindVideoTower.VisionModel Data).
Implicit Types (video x h : Tensor.t Data).

Lemma to_unsqueeze0 x dev dt :
  Tensor.to cast (Tensor.unsqueeze0 x) dev dt
  = Tensor.unsqueeze0 (Tensor.to cast x dev dt).
Proof.
  unfold Tensor.to, Tensor.to_dtype, Tensor.unsqueeze0. simpl.
  by case_decide.
Qed.

Lemma forward_one_as_batch self video :
  forward_one cast self video
  = forward_batch cast self (Tensor.unsqueeze0 video).
Proof.
  unfold forward_one, forward_batch.
  destruct (getattr "video_tower" (video_tower self)); simpl; [|done].
  destruct (device self); simpl; [|done].
  destruct (dtype self); simpl; [|done].
  by rewrite to_unsqueeze0.
Qed.

Lemma forward_one_ext self self' video :
  video_tower self = video_tower self' →
  select_layer self = select_layer self' →
  forward_one cast self video = forward_one cast self' video.
Proof.
  intros Ht Hl. unfold forward_one, device, dtype, feature_select.
  by rewrite Ht, Hl.
Qed.

Lemma forward_one_dtype self video f :
  forward_one cast self video = OK f → Tensor.dtype f = Tensor.dtype video.
Proof.
  unfold forward_one.
  intros (tower & _ & (dev & _ & (dt & _ & (h & _ & [= <-])%bind_OK)%bind_OK)
            %bind_OK)%bind_OK.
  apply to_dtype_dtype.
Qed.

Lemma forward_VideoList_OK self videos out :
  forward cast self (VideoList videos) = OK out ↔
  ∃ fs, out = FeatureList fs ∧
    Forall2 (λ video f, forward_one cast self video = OK f) videos fs.
Proof.
  simpl. rewrite forward_list_mapM.
  destruct (mapM (forward_one cast self) videos) as [fs|e] eqn:Hm; simpl.
  - apply mapM_result_OK in Hm. split.
    + intros [= <-]. by exists fs.
    + intros (fs' & -> & Hfs'). apply mapM_result_OK in Hm, Hfs'.
      rewrite Hm in Hfs'. by injection Hfs' as <-.
  - split; [done|]. intros (fs & -> & Hfs%mapM_result_OK). congruence.
Qed.

Lemma forward_ext self self' videos :
  video_tower self = video_tower self' →
  select_layer self = select_layer self' →
  forward cast self videos = forward cast self' videos.
Proof.
  intros Ht Hl. destruct videos as [videos|video]; simpl.
  - assert (∀ acc, forward_list cast self videos acc
                   = forward_list cast self' videos acc) as ->; [|done].
    induction videos as [|v videos IH]; intros acc; simpl; [done|].
    rewrite (forward_one_ext self self' v Ht Hl).
    destruct (forward_one cast self' v); simpl; [apply IH|done].
  - unfold forward_batch, device, dtype, feature_select. by rewrite Ht, Hl.
Qed.

(** [forward] reads two attributes of the adapter only, the encoder
    and [select_layer]: adapters that agree on these return the same,
    whatever the flag [is_loaded], the configuration kept for later or
    any other attribute says. *)
Theorem forward_reads_tower_and_layer self self' videos :
  video_tower self = video_tower self' →
  select_layer self = select_layer self' →
  forward cast self videos = forward cast self' videos.
Proof. apply forward_ext. Qed.

(** A tower built with [delay_load] has no encoder: [config] is the
    configuration loaded on its own, but [dtype], [device] and
    [dummy_feature] raise [AttributeError], and so does [forward] on a
    tensor or on a list with a video in it; on an empty list [forward]
    returns an empty list. *)
Theorem delay_loaded_tower name args cache :
  let self :=
    __init__ video_from_pretrained config_from_pretrained name args true cache in
  let cfg := config_from_pretrained name cache in
  is_loaded self = false ∧
  config self = OK cfg ∧
  dtype self = Raise (AttributeError "dtype") ∧
  device self = Raise (AttributeError "device") ∧
  dummy_feature zeros self = inl (Lookup (AttributeError "dummy_feature")) ∧
  (∀ video, forward cast self (VideoBatch video)
            = Raise (AttributeError "video_tower")) ∧
  (∀ video videos, forward cast self (VideoList (video :: videos))
                   = Raise (AttributeError "video_tower")) ∧
  forward cast self (VideoList []) = OK (FeatureList []).
Proof. repeat split. Qed.

(** Loading later gives the same tower as loading at once: after
    [load_model] a tower built with [delay_load] returns what the
    tower built without it returns, from [forward] and from every
    property. *)
Theorem load_after_delay name args cache :
  let lazy :=
    load_model video_from_pretrained
      (__init__ video_from_pretrained config_from_pretrained
         name args true cache) in
  let eager :=
    __init__ video_from_pretrained config_from_pretrained
      name args false cache in
  is_loaded lazy = true ∧
  (∀ videos, forward cast lazy videos = forward cast eager videos) ∧
  dtype lazy = dtype eager ∧
  device lazy = device eager ∧
  config lazy = config eager ∧
  hidden_size lazy = hidden_size eager ∧
  num_patches lazy = num_patches eager ∧
  dummy_feature zeros lazy = dummy_feature zeros eager.
Proof.
  intros lazy eager. split; [done|]. split; [|by repeat split].
  intros videos. by apply forward_ext.
Qed.

(** A list with one video is handled like that video with a leading
    dimension of size one given as a batch. *)
Theorem forward_singleton_as_batch self video f :
  forward cast self (VideoList [video]) = OK (FeatureList [f]) ↔
  forward cast self (VideoBatch (Tensor.unsqueeze0 video))
    = OK (FeatureBatch f).
Proof.
  simpl. rewrite forward_one_as_batch.
  destruct (forward_batch cast self (Tensor.unsqueeze0 video)) as [f'|e];
    simpl; [|done].
  split; by intros [= ->].
Qed.

(** The features of a concatenation of two lists are the features of
    the first followed by the features of the second. *)
Theorem forward_list_app self videos1 videos2 fs :
  forward cast self (VideoList (videos1 ++ videos2)) = OK (FeatureList fs) ↔
  ∃ fs1 fs2, fs = fs1 ++ fs2 ∧
    forward cast self (VideoList videos1) = OK (FeatureList fs1) ∧
    forward cast self (VideoList videos2) = OK (FeatureList fs2).
Proof.
  rewrite forward_VideoList_OK. split.
  - intros (fs' & [= <-] & (fs1 & fs2 & H1 & H2 & ->)%Forall2_app_inv_l).
    exists fs1, fs2. split; [done|].
    split; apply forward_VideoList_OK; eauto.
  - intros (fs1 & fs2 & -> & (f1 & [= <-] & H1)%forward_VideoList_OK
                          & (f2 & [= <-] & H2)%forward_VideoList_OK).
    exists (fs1 ++ fs2). split; [done|]. by apply Forall2_app.
Qed.

(** What [forward] returns has the element type of what it was given:
    a feature tensor of the input's element type for a batch, and for
    a list one feature per video, each of its video's element type. *)
Theorem forward_keeps_dtype self :
  (∀ videos out,
     forward cast self (VideoBatch videos) = OK out →
     ∃ f, out = FeatureBatch f ∧ Tensor.dtype f = Tensor.dtype videos) ∧
  (∀ videos out,
     forward cast self (VideoList videos) = OK out →
     ∃ fs, out = FeatureList fs ∧
       Forall2 (λ video f, Tensor.dtype f = Tensor.dtype video) videos fs).
Proof.
  split.
  - intros video out. simpl.
    destruct (forward_batch cast self video) as [f|e] eqn:Hf; simpl; [|done].
    intros [= <-]. exists f. split; [done|].
    revert Hf. unfold forward_batch.
    intros (tower & _ & (dev & _ & (dt & _ & (h & _ & [= <-])%bind_OK)%bind_OK)
              %bind_OK)%bind_OK.
    apply to_dtype_dtype.
  - intros videos out (fs & -> & Hfs)%forward_VideoList_OK.
    exists fs. split; [done|].
    eapply Forall2_impl; [exact Hfs|]. simpl. intros v f.
    apply forward_one_dtype.
Qed.

(** A layer counted from the end is the layer counted from the start:
    on a tuple of [n] hidden states the indices [i] and [i - n] select
    the same hidden state. *)
Theorem select_layer_from_end self self' video_forward_outs :
  (0 ≤ select_layer self'
     < Z.of_nat (length (hidden_states video_forward_outs)))%Z →
  select_layer self
    = (select_layer self'
         - Z.of_nat (length (hidden_states video_forward_outs)))%Z →
  feature_select self video_forward_outs
    = feature_select self' video_forward_outs.
Proof.
  intros Hi Hl. unfold feature_select. rewrite Hl.
  by rewrite py_index_from_end.
Qed.

(** The number of patches is a square, and the patches fit into the
    image: for a positive patch size and an image size that is not
    negative, [num_patches] is the square of the rounded-down quotient
    and [num_patches * patch_size ** 2] is at most [image_size ** 2],
    with equality when the patch size divides the image size. *)
Theorem num_patches_fit self cfg :
  config self = OK cfg →
  (0 < cfg_patch_size cfg)%Z →
  (0 ≤ cfg_image_size cfg)%Z →
  ∃ n,
    num_patches self = inr n ∧
    (n = (cfg_image_size cfg / cfg_patch_size cfg) ^ 2 ∧
     0 ≤ n ∧
     n * cfg_patch_size cfg ^ 2 ≤ cfg_image_size cfg ^ 2 ∧
     ((cfg_patch_size cfg | cfg_image_size cfg) →
      n * cfg_patch_size cfg ^ 2 = cfg_image_size cfg ^ 2))%Z.
Proof.
  intros Hc Hp Hi. eexists.
  unfold num_patches, floordiv. rewrite Hc. simpl.
  rewrite decide_False by lia. split; [done|].
  pose proof (Z.mul_div_le (cfg_image_size cfg) (cfg_patch_size cfg) Hp).
  pose proof (Z.div_pos (cfg_image_size cfg) (cfg_patch_size cfg) Hi Hp).
  split; [done|]. split; [lia|]. split.
  - nia.
  - intros [c Hd]. rewrite Hd, Z.div_mul by lia. lia.
Qed.

(** With a patch size of zero [num_patches] raises
    [ZeroDivisionError]. *)
Theorem num_patches_zero_patch self cfg :
  config self = OK cfg →
  cfg_patch_size cfg = 0%Z →
  num_patches self = inl ZeroDivisionError.
Proof.
  intros Hc Hp. unfold num_patches, floordiv. rewrite Hc. simpl.
  by rewrite decide_True.
Qed.

(** On a loaded tower [dummy_feature] is what [torch.zeros] gives for
    the sizes [(1, hidden_size)] - the hidden size of the encoder's
    configuration -, on the device and with the element type of the
    encoder's parameters: its tensor, or the exception it raises. *)
Theorem dummy_feature_loaded self tower :
  is_loaded self = true →
  video_tower self = Some tower →
  let r := zeros [1%Z; cfg_hidden_size (vision_config tower)]
             (tower_device tower) (tower_dtype tower) in
  (∀ name, r ≠ inl (Lookup (AttributeError name))) →
  dummy_feature zeros self = r.
Proof.
  intros Hl Ht r Hr. unfold dummy_feature, hidden_size.
  rewrite (config_loaded _ _ Hl Ht), (device_loaded _ _ Ht),
    (dtype_loaded _ _ Ht). simpl. fold r.
  destruct r as [[[| | |name]| | |]|x]; try done.
  by destruct (Hr name).
Qed.
End TowerMore.

(** ** The further properties on concrete inputs *)

Lemma example_servable (use_temp : bool) :
  LanguageBind.servable (Example.image_module use_temp) "image" ∧
  LanguageBind.servable (Example.image_module use_temp) "language".
Proof.
  split; (split; [by eexists|split; [by eexists|]]); intros _ Hk;
    [by eexists|done].
Defined.

Lemma example_not_servable (use_temp : bool) :
  ¬ LanguageBind.servable (Example.image_module use_temp) "audio".
Proof.
  intros ([x Hx] & _). revert Hx. unfold Example.image_module. simpl.
  by rewrite !lookup_insert_ne, lookup_empty.
Defined.

Lemma example_two_forward :
  NoDup (keys Example.two_inputs) ∧
  LanguageBind.forward (Example.image_module true) Example.two_inputs
    = OK Example.two_outputs.
Proof.
  split; [|reflexivity].
  apply (bool_decide_unpack _). by vm_compute.
Defined.

Lemma constructor_raises_first_unregistered_witness :
  LanguageBind.__init__ Example.hub
    ([("image", "LanguageBind_Image")]
       ++ ("language", "LanguageBind_Image")
       :: [("video", "LanguageBind_Video")])
    true "./cache_dir"
  = Raise (KeyError "language").
Proof.
  apply (constructor_raises_first_unregistered Example.hub
           [("image", "LanguageBind_Image")] "language" "LanguageBind_Image"
           [("video", "LanguageBind_Video")] true "./cache_dir").
  - apply example_registered.
  - apply language_not_registered.
Defined.

Lemma constructor_exceptions_witness :
  ([("language", "LanguageBind_Image")] = [] ∧
   KeyError "language" = UnboundLocalError "model") ∨
  (∃ k, k ∈ keys [("language", "LanguageBind_Image")] ∧
        (k ∉ registry_keys) ∧ KeyError "language" = KeyError k).
Proof.
  apply (constructor_exceptions Example.hub
           [("language", "LanguageBind_Image")] true "./cache_dir"
           (KeyError "language")).
  reflexivity.
Defined.

Lemma constructor_key_sets_witness :
  let self := Example.image_module true in
  dom (LanguageBind.modality_encoder self)
    = list_to_set (keys [("image", "LanguageBind_Image")]) ∪ {["language"]} ∧
  dom (LanguageBind.modality_proj self)
    = list_to_set (keys [("image", "LanguageBind_Image")]) ∪ {["language"]} ∧
  dom (LanguageBind.modality_scale self)
    = list_to_set (keys [("image", "LanguageBind_Image")]) ∧
  dom (LanguageBind.modality_config self)
    = list_to_set (keys [("image", "LanguageBind_Image")]) ∧
  LanguageBind.modality_scale self !! "language" = None ∧
  LanguageBind.modality_config self !! "language" = None ∧
  LanguageBind.use_temp self = true ∧
  length Example.image_loads = length [("image", "LanguageBind_Image")].
Proof.
  exact (constructor_key_sets Example.hub
           [("image", "LanguageBind_Image")] true "./cache_dir"
           (Example.image_module true) Example.image_loads
           (example_init true)).
Defined.

Lemma forward_raises_first_unserved_witness :
  LanguageBind.forward (Example.image_module true)
    (Example.image_inputs ++ ("audio", Example.text_value) :: [])
  = Raise (KeyError "audio").
Proof.
  apply (forward_raises_first_unserved (Example.image_module true)
           Example.image_inputs "audio" Example.text_value []).
  - constructor; [apply (example_servable true)|constructor].
  - apply example_not_servable.
Defined.

Lemma forward_exceptions_witness :
  ∃ key, key ∈ keys [("audio", Example.text_value)] ∧
    ¬ LanguageBind.servable (Example.image_module true) key ∧
    KeyError "audio" = KeyError key.
Proof.
  apply (forward_exceptions (Example.image_module true)
           [("audio", Example.text_value)] (KeyError "audio")).
  reflexivity.
Defined.

Lemma forward_one_key_alone_witness :
  ∃ b, Example.two_outputs !! "language" = Some b ∧
       LanguageBind.forward (Example.image_module true)
         [("language", Example.text_value)] = OK {[ "language" := b ]}.
Proof.
  apply (forward_one_key_alone (Example.image_module true)
           Example.two_inputs Example.two_outputs "language" Example.text_value
           (proj1 example_two_forward) (proj2 example_two_forward)).
  right. left.
Defined.

Lemma forward_order_irrelevant_witness :
  LanguageBind.forward (Example.image_module true) Example.two_inputs_swapped
  = OK Example.two_outputs.
Proof.
  apply (forward_order_irrelevant (Example.image_module true)
           Example.two_inputs Example.two_inputs_swapped Example.two_outputs
           (proj1 example_two_forward)).
  - apply perm_swap.
  - apply (proj2 example_two_forward).
Defined.

Lemma forward_keeps_shape_witness :
  ∃ b : Batch Example.Sym, Example.image_outputs false !! "image" = Some b ∧
    Forall2 (λ r r' : Row Example.Sym, length r = length r')
      b Example.image_value.
Proof.
  apply (forward_keeps_shape (Example.image_module false)
           Example.image_inputs (Example.image_outputs false) "image"
           Example.image_value
           (LanguageBind.vision_model Example.image_model)
           (LanguageBind.visual_projection Example.image_model)).
  - apply NoDup_singleton.
  - apply (example_forward false).
  - by left.
  - reflexivity.
  - reflexivity.
Defined.

Lemma modality_embedding_witness :
  ∃ cls, model_dict !! "image" = Some cls ∧
    let model :=
      LanguageBind.load Example.hub "./cache_dir" cls "LanguageBind_Image" in
    ∀ x : Batch Example.Sym,
      let p := LanguageBind.visual_projection model
                 (LanguageBind.pooler_output
                    (LanguageBind.vision_model model x)) in
      LanguageBind.forward (Example.image_module true) [("image", x)] =
        OK {[ "image" :=
                if true
                then map (λ r,
                            map (λ y, fmul (fdiv y (fnorm r))
                                        (fexp (LanguageBind.logit_scale model)))
                              r) p
                else map (λ r, map (λ y, fdiv y (fnorm r)) r) p ]}.
Proof.
  apply (modality_embedding Example.hub [("image", "LanguageBind_Image")]
           true "./cache_dir" (Example.image_module true) Example.image_loads
           "image" "LanguageBind_Image").
  - apply NoDup_singleton.
  - apply (example_init true).
  - by left.
Defined.

Lemma language_embedding_witness :
  ∃ self loads cls,
    LanguageBind.__init__ Example.hub
      ([("video", "LanguageBind_Video")] ++ [("image", "LanguageBind_Image")])
      true "./cache_dir" = OK (self, loads) ∧
    model_dict !! "image" = Some cls ∧
    let model :=
      LanguageBind.load Example.hub "./cache_dir" cls "LanguageBind_Image" in
    ∀ x : Batch Example.Sym,
      LanguageBind.forward self [("language", x)] =
        OK {[ "language" :=
                map (λ r, map (λ y, fdiv y (fnorm r)) r)
                  (LanguageBind.text_projection model
                     (LanguageBind.pooler_output
                        (LanguageBind.text_model model x))) ]}.
Proof.
  apply (language_embedding Example.hub [("video", "LanguageBind_Video")]
           "image" "LanguageBind_Image" true "./cache_dir").
  repeat constructor; apply (bool_decide_unpack _); by vm_compute.
Defined.

Lemma to_device_lookup_witness :
  let to := λ (v : string) (device : string), (v +:+ "@" +:+ device) in
  let x := [("pixel_values", "p"); ("input_ids", "i")] in
  (∀ k v, (k, v) ∈ x → to_device to x "cuda" !! k = Some (to v "cuda")) ∧
  (∀ k, k ∉ keys x → to_device to x "cuda" !! k = None).
Proof.
  apply (to_device_lookup
           (λ (v : string) (device : string), (v +:+ "@" +:+ device))
           [("pixel_values", "p"); ("input_ids", "i")] "cuda").
  apply (bool_decide_unpack _). by vm_compute.
Defined.

Lemma forward_reads_tower_and_layer_witness :
  LanguageBindVideoTower.forward Example.keep Example.tower
    (LanguageBindVideoTower.VideoBatch Example.video)
  = LanguageBindVideoTower.forward Example.keep
      (LanguageBindVideoTower.with_select_feature "cls_patch"
         (LanguageBindVideoTower.load_model Example.video_hub
            Example.zero_patch_tower))
      (LanguageBindVideoTower.VideoBatch Example.video).
Proof.
  apply (forward_reads_tower_and_layer Example.keep Example.tower
           (LanguageBindVideoTower.with_select_feature "cls_patch"
              (LanguageBindVideoTower.load_model Example.video_hub
                 Example.zero_patch_tower))
           (LanguageBindVideoTower.VideoBatch Example.video));
    reflexivity.
Defined.

Lemma forward_keeps_dtype_witness :
  ∃ f, LanguageBindVideoTower.FeatureBatch Example.video_feature
       = LanguageBindVideoTower.FeatureBatch f ∧
       Tensor.dtype f = Tensor.dtype Example.video.
Proof.
  apply (proj1 (forward_keeps_dtype Example.keep Example.tower)
           Example.video
           (LanguageBindVideoTower.FeatureBatch Example.video_feature)).
  reflexivity.
Defined.

Lemma select_layer_from_end_witness :
  LanguageBindVideoTower.feature_select Example.tower
    (LanguageBindVideoTower.call Example.video_encoder Example.video true)
  = LanguageBindVideoTower.feature_select Example.tower_from_start
      (LanguageBindVideoTower.call Example.video_encoder Example.video true).
Proof.
  apply (select_layer_from_end Example.tower Example.tower_from_start
           (LanguageBindVideoTower.call Example.video_encoder
              Example.video true)).
  - simpl. lia.
  - reflexivity.
Defined.

Lemma num_patches_fit_witness :
  ∃ n,
    LanguageBindVideoTower.num_patches Example.tower = inr n ∧
    (n = (224 / 14) ^ 2 ∧ 0 ≤ n ∧ n * 14 ^ 2 ≤ 224 ^ 2 ∧
     ((14 | 224) → n * 14 ^ 2 = 224 ^ 2))%Z.
Proof.
  apply (num_patches_fit Example.tower Example.video_config).
  - reflexivity.
  - simpl. lia.
  - simpl. lia.
Defined.

Lemma num_patches_zero_patch_witness :
  LanguageBindVideoTower.num_patches Example.zero_patch_tower
  = inl ZeroDivisionError.
Proof.
  apply (num_patches_zero_patch Example.zero_patch_tower
           Example.zero_patch_config); reflexivity.
Defined.

Lemma dummy_feature_loaded_witness :
  LanguageBindVideoTower.dummy_feature Example.zeros Example.tower
  = Example.zeros [1%Z; 1024%Z] (cuda 0) float16.
Proof.
  apply (dummy_feature_loaded Example.zeros Example.tower
           Example.video_encoder
           (proj1 example_tower_loaded) (proj2 example_tower_loaded)).
  intros name. discriminate.
Defined.
